(** * github-follow-sync: a model of [scripts/follow_manager.py]

    The script reconciles the followers and the following lists of a GitHub
    account.  Everything it does is a handful of HTTP calls, set arithmetic
    and console output, so the model is a state-and-exception monad over an
    abstract "world" (the HTTP session and the clock) that records every
    observable effect in a trace. *)

From stdpp Require Import base tactics option list gmap sets strings.
From Stdlib Require Import ZArith Lia Ascii.

Local Open Scope string_scope.
Local Open Scope list_scope.
Local Open Scope Z_scope.

(** ** Values returned by [r.json()] *)

(** JSON numbers are restricted to integers, which is what the API's schema
    uses for [remaining], [reset] and the status codes; a JSON object is the
    Python [dict] it is decoded to, keyed by strings. *)
#[warnings="-register-all"]
Inductive json : Type :=
  | JNull : json
  | JBool (b : bool) : json
  | JInt (z : Z) : json
  | JStr (s : string) : json
  | JArr (items : list json) : json
  | JObj (fields : gmap string json) : json.

(** Python exceptions that can escape the script. *)
Inductive exn : Type :=
  | TransportError          (* any exception raised by [requests] itself *)
  | JSONDecodeError         (* [r.json()] on a body that is not JSON *)
  | KeyError (key : string) (* [d[key]] on a dict without [key] *)
  | TypeError               (* wrong kind of operand *)
  | ValueError              (* [time.sleep] of a negative length *)
  | OverflowError.          (* [time.sleep] of a length it cannot hold *)

(** [v[key]] for a string [key]: only a dict can be subscripted by a string. *)
Definition subscript (v : json) (key : string) : exn + json :=
  match v with
  | JObj fields =>
      match fields !! key with
      | Some x => inr x
      | None => inl (KeyError key)
      end
  | _ => inl TypeError
  end.

(** Python's truthiness, as used by [if not data]. *)
Definition truthy (v : json) : bool :=
  match v with
  | JNull => false
  | JBool b => b
  | JInt z => negb (z =? 0)
  | JStr s => negb (String.eqb s "")
  | JArr items => match items with [] => false | _ => true end
  | JObj fields => negb (bool_decide (fields = ∅))
  end.

(** The integer a value stands for in a comparison or a subtraction with an
    [int]; [bool] is a subclass of [int] in Python, everything else raises
    [TypeError]. *)
Definition as_int (v : json) : exn + Z :=
  match v with
  | JInt z => inr z
  | JBool b => inr (if b then 1 else 0)
  | _ => inl TypeError
  end.

(** ** HTTP *)

Inductive method : Type := GET | PUT | DELETE.

Record request : Type := Request {
  req_method : method;
  req_url : string;
  req_params : list (string * Z)
}.

(** A response: [r.status_code], [r.text], and what [r.json()] yields
    ([None] when the body is not JSON and [r.json()] raises). *)
Record response : Type := Response {
  status_code : Z;
  text : string;
  body : option json
}.

#[global] Instance method_eq_dec : EqDecision method.
Proof. solve_decision. Defined.

#[global] Instance request_eq_dec : EqDecision request.
Proof. solve_decision. Defined.

Definition GITHUB_API : string := "https://api.github.com".

(** ** Console output and the trace of effects *)

(** One argument of [print], or one piece of an f-string: literal text, or a
    value whose rendering is left symbolic. *)
Inductive fragment : Type :=
  | Lit (s : string)
  | ShowInt (z : Z)
  | ShowJson (v : json)
  | ShowList (l : list string).

Inductive event : Type :=
  | Http (rq : request)            (* a request sent on the session *)
  | Print (line : list fragment)   (* one call to [print] *)
  | Sleep (seconds : Z)            (* [time.sleep(n)] with an integer [n] *)
  | Pace (lo hi : Z).              (* [time.sleep(random.uniform(lo, hi))] *)

(** ** The world: the script's external collaborators *)

Class World (W : Type) : Type := {
  (** sending a request either raises or yields a response *)
  send : request → W → (exn + response) * W;
  (** [int(time.time())] *)
  now : W → Z * W;
  (** the order in which [list(s)] enumerates a set: some enumeration of
      its elements without repetition *)
  set_to_list : gset string → list string;
  set_to_list_perm : ∀ s, set_to_list s ≡ₚ elements s
}.

(** ** The monad of the script *)

(** The state threaded through a run: the world and the effects so far,
    oldest first. *)
Record state (W : Type) : Type := State {
  world : W;
  trace : list event
}.
Arguments State {W} _ _.
Arguments world {W} _.
Arguments trace {W} _.

(** Where the model stops following the script: the loop budget given to
    [get_paginated] is used up, or a [login] that is hashable but not a
    string would enter the [Set[str]]. *)
Inductive gap : Type := Fuel | NonStrLogin.

(** How a computation ends: with a value, with a Python exception, or at a
    point the model does not follow. *)
Inductive outcome (A : Type) : Type :=
  | Ret (a : A)
  | Raise (e : exn)
  | Stuck (g : gap).
Arguments Ret {A} _.
Arguments Raise {A} _.
Arguments Stuck {A} _.

Definition M (W A : Type) : Type := state W → outcome A * state W.

#[global] Instance M_ret {W} : MRet (M W) := λ A a st, (Ret a, st).

#[global] Instance M_bind {W} : MBind (M W) := λ A B k m st,
  match m st with
  | (Ret a, st') => k a st'
  | (Raise e, st') => (Raise e, st')
  | (Stuck g, st') => (Stuck g, st')
  end.

Definition raise {W A} (e : exn) : M W A := λ st, (Raise e, st).

Definition stuck {W A} (g : gap) : M W A := λ st, (Stuck g, st).

Definition emit {W} (ev : event) : M W unit :=
  λ st, (Ret tt, State (world st) (trace st ++ [ev])).

(** Lift the result of a pure operation that may raise. *)
Definition lift {W A} (r : exn + A) : M W A :=
  match r with
  | inl e => raise e
  | inr a => mret a
  end.

(** [l[:n]]: a negative [n] counts from the end. *)
Definition slice_to {A} (l : list A) (n : Z) : list A :=
  if n <? 0 then take (Z.to_nat (Z.of_nat (length l) + n)) l
  else take (Z.to_nat n) l.

(** [for x in xs: body(x)] *)
Fixpoint for_each {W A} (xs : list A) (loop_body : A → M W unit) : M W unit :=
  match xs with
  | [] => mret tt
  | x :: rest => loop_body x;; for_each rest loop_body
  end.

(** The parsed command line: [--mode], [--max-follows], [--max-unfollows]. *)
Inductive run_mode : Type := DryRun | Execute.

Record args : Type := Args {
  mode : run_mode;
  max_follows : Z;
  max_unfollows : Z
}.


(** The longest sleep, in whole seconds, that [time.sleep] accepts: CPython
    keeps the length in nanoseconds in a signed 64-bit integer, and raises
    [OverflowError] when the conversion does not fit.  This is the
    quotient of [2 ^ 63 - 1] by [10 ^ 9]. *)
Definition sleep_max : Z := 9223372036.

Section Script.
Context {W : Type} `{!World W}.

(** *** Primitive effects *)

Definition print (line : list fragment) : M W unit := emit (Print line).

(** [time.sleep(seconds)] for an integer [seconds]: a negative length is
    refused, and so is one that exceeds [sleep_max]; otherwise the process
    sleeps. *)
Definition time_sleep (seconds : Z) : M W unit :=
  if seconds <? 0 then raise ValueError
  else if sleep_max <? seconds then raise OverflowError
  else emit (Sleep seconds).

Definition sleep_uniform (lo hi : Z) : M W unit := emit (Pace lo hi).

Definition time_now : M W Z :=
  λ st, let '(t, w) := now (world st) in (Ret t, State w (trace st)).

(** [self.session.<method>(url, params=...)]: the request is recorded
    before the world answers it. *)
Definition session (rq : request) : M W response :=
  λ st,
    let '(r, w) := send rq (world st) in
    let st' := State w (trace st ++ [Http rq]) in
    match r with
    | inl e => (Raise e, st')
    | inr resp => (Ret resp, st')
    end.

(** [r.json()] *)
Definition json_of (r : response) : M W json :=
  match body r with
  | Some v => mret v
  | None => raise JSONDecodeError
  end.

(** *** class [GitHubFollowManager] *)

Definition check_rate_limit : M W unit :=
  r ← session (Request GET (GITHUB_API +:+ "/rate_limit") []);
  data ← json_of r;
  rate ← lift (subscript data "rate");
  remaining ← lift (subscript rate "remaining");
  rate' ← lift (subscript data "rate");
  reset ← lift (subscript rate' "reset");
  print [Lit "[INFO] API remaining: "; ShowJson remaining];;
  remaining_n ← lift (as_int remaining);
  if remaining_n <? 5 then
    t ← time_now;
    reset_n ← lift (as_int reset);
    let wait_time := Z.max (reset_n - t) 0 in
    print [Lit "[WARNING] Rate limit low. Sleeping "; ShowInt wait_time;
           Lit " seconds..."];;
    time_sleep wait_time
  else mret tt.

(** [users.add(user["login"])] for one element of the page.  The code adds
    any hashable login to the set; the sets of the model hold strings, so
    on a login that is [null], a bool or a number the model stops at
    [Stuck NonStrLogin] instead of following the run further. *)
Definition add_login (user : json) (users : gset string)
    : M W (gset string) :=
  login ← lift (subscript user "login");
  match login with
  | JStr s => mret ({[ s ]} ∪ users)
  | JArr _ | JObj _ => raise TypeError        (* unhashable *)
  | JNull | JBool _ | JInt _ => stuck NonStrLogin
  end.

Fixpoint add_logins (data : list json) (users : gset string)
    : M W (gset string) :=
  match data with
  | [] => mret users
  | user :: rest => users' ← add_login user users; add_logins rest users'
  end.

(** [for user in data: users.add(user["login"])], for a truthy [data]:
    iterating a dict or a string yields strings, which cannot be
    subscripted by ["login"]; a number or a bool cannot be iterated. *)
Definition collect (data : json) (users : gset string)
    : M W (gset string) :=
  match data with
  | JArr items => add_logins items users
  | _ => raise TypeError
  end.

(** The [while True] loop of [get_paginated]; [fuel] bounds the number of
    pages requested. *)
Fixpoint get_paginated_from (fuel : nat) (url : string)
    (users : gset string) (page : Z) : M W (gset string) :=
  match fuel with
  | O => stuck Fuel
  | S fuel' =>
      r ← session (Request GET url [("per_page", 100); ("page", page)]);
      if bool_decide (status_code r ≠ 200) then
        print [Lit "[ERROR] Failed to fetch: "; Lit (text r)];;
        mret users
      else
        data ← json_of r;
        if negb (truthy data) then mret users
        else
          users' ← collect data users;
          get_paginated_from fuel' url users' (page + 1)
  end.

Definition get_paginated (fuel : nat) (url : string) : M W (gset string) :=
  get_paginated_from fuel url ∅ 1.

Definition get_followers (fuel : nat) : M W (gset string) :=
  print [Lit "[INFO] Fetching followers..."];;
  get_paginated fuel (GITHUB_API +:+ "/user/followers").

Definition get_following (fuel : nat) : M W (gset string) :=
  print [Lit "[INFO] Fetching following..."];;
  get_paginated fuel (GITHUB_API +:+ "/user/following").

Definition follow_user (username : string) : M W bool :=
  r ← session (Request PUT (GITHUB_API +:+ "/user/following/" +:+ username) []);
  mret (bool_decide (status_code r = 204)).

Definition unfollow_user (username : string) : M W bool :=
  r ← session (Request DELETE (GITHUB_API +:+ "/user/following/" +:+ username) []);
  mret (bool_decide (status_code r = 204)).

(** *** [main] *)

(** Lines 91-92: the two candidate lists. *)
Definition reconcile (followers following : gset string)
    (max_follow max_unfollow : Z) : list string * list string :=
  (slice_to (set_to_list (followers ∖ following)) max_follow,
   slice_to (set_to_list (following ∖ followers)) max_unfollow).

(** Lines 103-106: the body of [for user in to_follow]. *)
Definition follow_body (user : string) : M W unit :=
  print [Lit "[ACTION] Following "; Lit user];;
  ok ← follow_user user;
  (if (ok : bool) then print [Lit "[SUCCESS] Followed "; Lit user]
   else mret tt);;
  sleep_uniform 2 5.

(** Lines 109-112: the body of [for user in to_unfollow]. *)
Definition unfollow_body (user : string) : M W unit :=
  print [Lit "[ACTION] Unfollowing "; Lit user];;
  ok ← unfollow_user user;
  (if (ok : bool) then print [Lit "[SUCCESS] Unfollowed "; Lit user]
   else mret tt);;
  sleep_uniform 2 5.

(** [GITHUB_TOKEN] is what [os.getenv] returns: [None] when the variable
    is not set.  [fuel] is the page budget of each paginated fetch. *)
Definition main (a : args) (GITHUB_TOKEN : option string) (fuel : nat)
    : M W unit :=
  match GITHUB_TOKEN with
  | None | Some EmptyString =>          (* [if not token] *)
      print [Lit "[ERROR] GITHUB_TOKEN not set"]
  | Some _ =>
      check_rate_limit;;
      followers ← get_followers fuel;
      following ← get_following fuel;
      let '(to_follow, to_unfollow) :=
        reconcile followers following (max_follows a) (max_unfollows a) in
      print [Lit "[INFO] Users to follow: ";
             ShowInt (Z.of_nat (length to_follow))];;
      print [Lit "[INFO] Users to unfollow: ";
             ShowInt (Z.of_nat (length to_unfollow))];;
      match mode a with
      | DryRun =>
          print [Lit "[DRY RUN] Would follow:"; ShowList to_follow];;
          print [Lit "[DRY RUN] Would unfollow:"; ShowList to_unfollow]
      | Execute =>
          for_each to_follow follow_body;;
          for_each to_unfollow unfollow_body
      end
  end.

End Script.

(** Running a computation from a world with nothing observed yet. *)
Definition run {W A} (m : M W A) (w : W) : outcome A * state W :=
  m (State w []).

(** ** Vocabulary of the properties *)

(** The mutation request an event stands for: a [PUT] or a [DELETE] sent on
    the session. *)
Definition mutation (ev : event) : option request :=
  match ev with
  | Http rq =>
      match req_method rq with
      | GET => None
      | PUT | DELETE => Some rq
      end
  | _ => None
  end.

(** The mutation calls recorded in a trace, oldest first. *)
Definition mutations (tr : list event) : list request := omap mutation tr.

(** The requests the script sends. *)
Definition follow_request (user : string) : request :=
  Request PUT (GITHUB_API +:+ "/user/following/" +:+ user) [].

Definition unfollow_request (user : string) : request :=
  Request DELETE (GITHUB_API +:+ "/user/following/" +:+ user) [].

(** What one iteration adds to the trace when the call is answered with
    status [status]: the [SUCCESS] line is there exactly for a 204. *)
Definition item_events (verb done : string) (rq : request) (user : string)
    (status : Z) : list event :=
  [Print [Lit verb; Lit user]; Http rq]
  ++ (if bool_decide (status = 204) then [Print [Lit done; Lit user]] else [])
  ++ [Pace 2 5].

Definition page_request (url : string) (page : Z) : request :=
  Request GET url [("per_page", 100); ("page", page)].

(** The requests for [n] consecutive pages, starting at [page]. *)
Fixpoint page_requests (url : string) (page : Z) (n : nat) : list request :=
  match n with
  | O => []
  | S n' => page_request url page :: page_requests url (page + 1) n'
  end.

(** [r] is a successful page whose entries have the logins [logins], in
    this order. *)
Definition is_page (r : response) (logins : list string) : Prop :=
  status_code r = 200 ∧
  ∃ items, body r = Some (JArr items) ∧
    Forall2 (λ item login, subscript item "login" = inr (JStr login))
      items logins.

Definition rate_request : request :=
  Request GET (GITHUB_API +:+ "/rate_limit") [].

(** The body of [r] is JSON and has [remaining] and [reset] under
    ["rate"]. *)
Definition has_rate (r : response) (remaining reset : json) : Prop :=
  ∃ data rate,
    body r = Some data ∧
    subscript data "rate" = inr rate ∧
    subscript rate "remaining" = inr remaining ∧
    subscript rate "reset" = inr reset.


(** The request an event stands for, of any method. *)
Definition request_of (ev : event) : option request :=
  match ev with
  | Http rq => Some rq
  | _ => None
  end.

(** All the requests recorded in a trace, oldest first. *)
Definition requests (tr : list event) : list request := omap request_of tr.

(** The events a run of the script can add to the trace: a request to one
    of its five endpoints, a printed line, a sleep of a non-negative number
    of seconds, or a pacing sleep drawn from [2, 5]. *)
Inductive script_event : event → Prop :=
  | ev_rate_limit :
      script_event (Http rate_request)
  | ev_followers page :
      script_event
        (Http (page_request (GITHUB_API +:+ "/user/followers") page))
  | ev_following page :
      script_event
        (Http (page_request (GITHUB_API +:+ "/user/following") page))
  | ev_follow user :
      script_event (Http (follow_request user))
  | ev_unfollow user :
      script_event (Http (unfollow_request user))
  | ev_print line :
      script_event (Print line)
  | ev_sleep seconds :
      0 ≤ seconds → script_event (Sleep seconds)
  | ev_pace :
      script_event (Pace 2 5).

(** What a whole loop adds to the trace when the call for each item of
    [users] is answered by the response at the same position in [rs]. *)
Definition loop_events (verb done : string) (rq : string → request)
    (users : list string) (rs : list response) : list event :=
  concat (zip_with (λ user r, item_events verb done (rq user) user
                                (status_code r)) users rs).

(** ** A scripted world

    A concrete [World] in the manner of a test double: a fixed table from
    requests to responses (a request that is not in the table fails at the
    transport level), a fixed clock, and sets enumerated in the order of
    [elements]. *)
Module Mock.

Record table : Type := Table {
  routes : list (request * response);
  clock : Z
}.

Definition lookup_route (rq : request) (t : table) : exn + response :=
  match list_find (λ p, p.1 = rq) (routes t) with
  | Some (_, (_, r)) => inr r
  | None => inl TransportError
  end.

#[global] Instance table_world : World table := {|
  send rq t := (lookup_route rq t, t);
  now t := (clock t, t);
  set_to_list := elements;
  set_to_list_perm s := reflexivity (elements s)
|}.

Definition user (login : string) : json := JObj {[ "login" := JStr login ]}.

Definition rate (remaining reset : Z) : json :=
  JObj {[ "rate" := JObj (<[ "remaining" := JInt remaining ]>
                            {[ "reset" := JInt reset ]}) ]}.

Definition ok (v : json) : response := Response 200 "" (Some v).

Definition followers_url : string := GITHUB_API +:+ "/user/followers".
Definition following_url : string := GITHUB_API +:+ "/user/following".

(** An account followed by alice, bob and carol and following bob and
    dave, with 2 calls of quota left until 10 seconds from now. *)
Definition demo : table := Table
  [ (rate_request, ok (rate 2 110));
    (page_request followers_url 1,
     ok (JArr [user "alice"; user "bob"; user "carol"]));
    (page_request followers_url 2, ok (JArr []));
    (page_request following_url 1, ok (JArr [user "bob"; user "dave"]));
    (page_request following_url 2, ok (JArr []));
    (follow_request "carol", Response 204 "" None);
    (follow_request "alice", Response 404 "Not Found" None);
    (unfollow_request "dave", Response 204 "" None);
    (unfollow_request "carol", Response 404 "Not Found" None) ]
  100.

(** The pages [{A, B}; {C}; {}] of a list endpoint. *)
Definition three_pages : table := Table
  [ (page_request followers_url 1, ok (JArr [user "A"; user "B"]));
    (page_request followers_url 2, ok (JArr [user "C"]));
    (page_request followers_url 3, ok (JArr [])) ]
  0.

(** The pages [{A}; <500 error>]. *)
Definition failing_page : table := Table
  [ (page_request followers_url 1, ok (JArr [user "A"]));
    (page_request followers_url 2,
     Response 500 "Internal Server Error" None) ]
  0.



(** The pages [{A}; <200 with a body that is not JSON>]. *)
Definition bad_json_page : table := Table
  [ (page_request followers_url 1, ok (JArr [user "A"]));
    (page_request followers_url 2, Response 200 "<html>" None) ]
  0.

(** The pages [{A}; {B, <an entry without login>}]. *)
Definition missing_login_page : table := Table
  [ (page_request followers_url 1, ok (JArr [user "A"]));
    (page_request followers_url 2,
     ok (JArr [user "B"; JObj {[ "id" := JInt 7 ]}; user "C"])) ]
  0.

(** The pages [{A}; null]. *)
Definition null_page : table := Table
  [ (page_request followers_url 1, ok (JArr [user "A"]));
    (page_request followers_url 2, ok JNull) ]
  0.

(** A rate-limit document whose [remaining] is a string. *)
Definition text_remaining : table := Table
  [ (rate_request,
     ok (JObj {[ "rate" := JObj (<[ "remaining" := JStr "4999" ]>
                                   {[ "reset" := JInt 110 ]}) ]})) ]
  100.

(** A rate-limit document with quota left and a [reset] that is [null]. *)
Definition null_reset : table := Table
  [ (rate_request,
     ok (JObj {[ "rate" := JObj (<[ "remaining" := JInt 60 ]>
                                   {[ "reset" := JNull ]}) ]})) ]
  100.

(** A quota of 2 calls and a reset more than three centuries ahead. *)
Definition far_reset : table := Table
  [ (rate_request, ok (rate 2 10000000100)) ]
  100.

(** The demo account on a network that drops the follow call for alice. *)
Definition flaky : table := Table
  [ (rate_request, ok (rate 60 110));
    (page_request followers_url 1,
     ok (JArr [user "alice"; user "bob"; user "carol"]));
    (page_request followers_url 2, ok (JArr []));
    (page_request following_url 1, ok (JArr [user "bob"; user "dave"]));
    (page_request following_url 2, ok (JArr []));
    (follow_request "carol", Response 204 "" None);
    (unfollow_request "dave", Response 204 "" None) ]
  100.

(** The demo account when the followers endpoint is out of service. *)
Definition followers_down : table := Table
  [ (rate_request, ok (rate 60 110));
    (page_request followers_url 1, Response 503 "Service Unavailable" None);
    (page_request following_url 1, ok (JArr [user "bob"; user "dave"]));
    (page_request following_url 2, ok (JArr [])) ]
  100.

End Mock.

(** * Properties *)

(** ** Reasoning about runs *)

Section Runs.
Context {W : Type} `{!World W}.

(** [m] sends no mutation request, however it ends. *)
Definition silent {A} (m : M W A) : Prop :=
  ∀ st, mutations (trace (m st).2) = mutations (trace st).

(** Lines 86-92 of [main]: the guard, the two fetches and the two
    candidate lists. *)
Definition candidates (a : args) (fuel : nat)
    : M W (list string * list string) :=
  check_rate_limit;;
  followers ← get_followers fuel;
  following ← get_following fuel;
  mret (reconcile followers following (max_follows a) (max_unfollows a)).

(** Lines 94-112 of [main]: what is done with the candidate lists. *)
Definition report (a : args) (c : list string * list string) : M W unit :=
  print [Lit "[INFO] Users to follow: "; ShowInt (Z.of_nat (length c.1))];;
  print [Lit "[INFO] Users to unfollow: "; ShowInt (Z.of_nat (length c.2))];;
  match mode a with
  | DryRun =>
      print [Lit "[DRY RUN] Would follow:"; ShowList c.1];;
      print [Lit "[DRY RUN] Would unfollow:"; ShowList c.2]
  | Execute =>
      for_each c.1 follow_body;;
      for_each c.2 unfollow_body
  end.

(** [m] sends exactly the mutation requests [rqs], in this order, however
    it ends. *)
Definition calls {A} (m : M W A) (rqs : list request) : Prop :=
  ∀ st, mutations (trace (m st).2) = mutations (trace st) ++ rqs.

(** The world [w] answers the requests [rqs], sent one after the other,
    with the responses [rs], and is then [w']. *)
Fixpoint answers (w : W) (rqs : list request) (rs : list response) (w' : W)
    : Prop :=
  match rqs, rs with
  | [], [] => w' = w
  | rq :: rqs', r :: rs' =>
      ∃ w1, send rq w = (inr r, w1) ∧ answers w1 rqs' rs' w'
  | _, _ => False
  end.

(** Whatever the state [m] starts from, it leaves the events recorded so
    far in place and adds only events that satisfy [P]. *)
Definition appends (P : event → Prop) {A} (m : M W A) : Prop :=
  ∀ st, ∃ evs, trace (m st).2 = trace st ++ evs ∧ Forall P evs.

Lemma mutations_app tr1 tr2 :
  mutations (tr1 ++ tr2) = mutations tr1 ++ mutations tr2.
Proof. apply omap_app. Qed.

Lemma mutations_snoc_quiet tr ev :
  mutation ev = None → mutations (tr ++ [ev]) = mutations tr.
Proof.
  intros Hev. rewrite mutations_app. simpl. rewrite Hev.
  apply app_nil_r.
Qed.

Lemma mutations_snoc_call tr rq :
  req_method rq ≠ GET → mutations (tr ++ [Http rq]) = mutations tr ++ [rq].
Proof.
  intros Hrq. rewrite mutations_app. simpl. by destruct (req_method rq).
Qed.

Lemma prefix_fmap {A B} (f : A → B) (l1 l2 : list A) :
  l1 `prefix_of` l2 → f <$> l1 `prefix_of` f <$> l2.
Proof. intros [k ->]. exists (f <$> k). apply fmap_app. Qed.

Lemma bind_run {A B} (m : M W A) (k : A → M W B) st :
  (m ≫= k) st =
    match m st with
    | (Ret a, st') => k a st'
    | (Raise e, st') => (Raise e, st')
    | (Stuck g, st') => (Stuck g, st')
    end.
Proof. reflexivity. Qed.

Lemma ret_run {A} (a : A) (st : state W) :
  (mret a : M W A) st = (Ret a, st).
Proof. reflexivity. Qed.

Lemma bind_ret {A B} (m : M W A) (k : A → M W B) st a st' :
  m st = (Ret a, st') → (m ≫= k) st = k a st'.
Proof. intros Hm. by rewrite bind_run, Hm. Qed.

Lemma bind_raise {A B} (m : M W A) (k : A → M W B) st e st' :
  m st = (Raise e, st') → (m ≫= k) st = (Raise e, st').
Proof. intros Hm. by rewrite bind_run, Hm. Qed.

Lemma bind_assoc_run {A B C} (m : M W A) (k : A → M W B) (h : B → M W C) st :
  ((m ≫= k) ≫= h) st = (m ≫= λ a, k a ≫= h) st.
Proof. rewrite !bind_run. by destruct (m st) as [[a|e|g] st']. Qed.

Lemma session_run rq st :
  session rq st =
    (match (send rq (world st)).1 with
     | inl e => Raise e
     | inr resp => Ret resp
     end,
     State (send rq (world st)).2 (trace st ++ [Http rq])).
Proof.
  unfold session. destruct (send rq (world st)) as [[e|resp] w]; done.
Qed.

Lemma session_ok rq st resp w :
  send rq (world st) = (inr resp, w) →
  session rq st = (Ret resp, State w (trace st ++ [Http rq])).
Proof. intros Hsend. by rewrite session_run, Hsend. Qed.

Lemma session_raise rq st e w :
  send rq (world st) = (inl e, w) →
  session rq st = (Raise e, State w (trace st ++ [Http rq])).
Proof. intros Hsend. by rewrite session_run, Hsend. Qed.

Lemma session_trace {rq} st :
  trace (session rq st).2 = trace st ++ [Http rq].
Proof. by rewrite session_run. Qed.

(** *** Computations that send no mutation request *)

Lemma silent_ret {A} (a : A) : silent (mret a : M W A).
Proof. by intros st. Qed.

Lemma silent_raise {A} e : silent (raise e : M W A).
Proof. by intros st. Qed.

Lemma silent_stuck {A} g : silent (stuck g : M W A).
Proof. by intros st. Qed.

Lemma silent_bind {A B} (m : M W A) (k : A → M W B) :
  silent m → (∀ a, silent (k a)) → silent (m ≫= k).
Proof.
  intros Hm Hk st. rewrite bind_run.
  specialize (Hm st). destruct (m st) as [[a|e|g] st']; simpl in *; [|done..].
  by rewrite Hk.
Qed.

Lemma silent_emit ev : mutation ev = None → silent (emit ev : M W unit).
Proof. intros Hev st. by apply mutations_snoc_quiet. Qed.

Lemma silent_print line : silent (print line).
Proof. by apply silent_emit. Qed.

Lemma silent_time_sleep n : silent (time_sleep n).
Proof.
  unfold time_sleep. repeat case_match;
    [apply silent_raise | apply silent_raise | by apply silent_emit].
Qed.

Lemma silent_time_now : silent time_now.
Proof. intros st. unfold time_now. by destruct (now (world st)). Qed.

Lemma silent_lift {A} (r : exn + A) : silent (lift r : M W A).
Proof. destruct r; [apply silent_raise | apply silent_ret]. Qed.

Lemma silent_json_of r : silent (json_of r).
Proof.
  unfold json_of. destruct (body r); [apply silent_ret | apply silent_raise].
Qed.

Lemma silent_get url params : silent (session (Request GET url params)).
Proof. intros st. rewrite session_trace. by apply mutations_snoc_quiet. Qed.

Create HintDb silent discriminated.
Hint Resolve silent_ret silent_raise silent_stuck silent_print
  silent_time_sleep silent_time_now silent_lift silent_json_of
  silent_get : silent.

Ltac silent_steps :=
  repeat first
    [ progress eauto with silent
    | apply silent_bind; [| intros ?]
    | case_match ].

Lemma silent_check_rate_limit : silent check_rate_limit.
Proof. unfold check_rate_limit. silent_steps. Qed.

Lemma silent_add_logins data users : silent (add_logins data users).
Proof.
  revert users. induction data as [|user rest IH]; intros users; simpl.
  - apply silent_ret.
  - unfold add_login. silent_steps.
Qed.

Lemma silent_get_paginated_from fuel url users page :
  silent (get_paginated_from fuel url users page).
Proof.
  revert users page. induction fuel as [|fuel IH]; intros users page; simpl.
  - apply silent_stuck.
  - unfold collect. pose proof silent_add_logins. silent_steps.
Qed.

Lemma silent_get_followers fuel : silent (get_followers fuel).
Proof.
  unfold get_followers, get_paginated.
  pose proof silent_get_paginated_from. silent_steps.
Qed.

Lemma silent_get_following fuel : silent (get_following fuel).
Proof.
  unfold get_following, get_paginated.
  pose proof silent_get_paginated_from. silent_steps.
Qed.

(** *** The shape of [main] *)

Lemma main_with_token a c token fuel st :
  main a (Some (String c token)) fuel st
  = (candidates a fuel ≫= report a) st.
Proof.
  unfold main, candidates. rewrite !bind_run.
  destruct (check_rate_limit st) as [[[]|e|g] st1]; [|done..].
  rewrite !bind_run.
  destruct (get_followers fuel st1) as [[followers|e|g] st2]; [|done..].
  rewrite !bind_run.
  destruct (get_following fuel st2) as [[following|e|g] st3]; [|done..].
  reflexivity.
Qed.

Lemma silent_candidates a fuel : silent (candidates a fuel).
Proof.
  unfold candidates.
  pose proof silent_check_rate_limit.
  pose proof silent_get_followers. pose proof silent_get_following.
  silent_steps.
Qed.

Lemma silent_report_dry_run a c : mode a = DryRun → silent (report a c).
Proof. intros Hmode. unfold report. rewrite Hmode. silent_steps. Qed.

(** C8.  When [GITHUB_TOKEN] is not set, the run prints the error and
    returns at once: the world is untouched and the only new event is that
    line, so no request of any kind is sent. *)
Theorem main_missing_token a fuel st :
  main a None fuel st
  = (Ret tt,
     State (world st) (trace st ++ [Print [Lit "[ERROR] GITHUB_TOKEN not set"]])).
Proof. reflexivity. Qed.

(** C2.  In dry-run mode the run adds no [PUT] and no [DELETE] request to
    the trace, whatever the token, the sets fetched and the caps; and once
    the candidate lists are computed, all it does is print the two counts
    and the two lists. *)
Theorem dry_run_never_mutates max_follow max_unfollow token fuel st :
  let a := Args DryRun max_follow max_unfollow in
  mutations (trace (main a token fuel st).2) = mutations (trace st) ∧
  ∀ to_follow to_unfollow st',
    token ≠ None → token ≠ Some "" →
    candidates a fuel st = (Ret (to_follow, to_unfollow), st') →
    main a token fuel st
    = (Ret tt,
       State (world st')
         (trace st' ++
          [Print [Lit "[INFO] Users to follow: ";
                  ShowInt (Z.of_nat (length to_follow))];
           Print [Lit "[INFO] Users to unfollow: ";
                  ShowInt (Z.of_nat (length to_unfollow))];
           Print [Lit "[DRY RUN] Would follow:"; ShowList to_follow];
           Print [Lit "[DRY RUN] Would unfollow:"; ShowList to_unfollow]])).
Proof.
  intros a. split.
  - destruct token as [[|c token]|]; [by apply silent_print| |by apply silent_print].
    rewrite main_with_token.
    apply silent_bind; [apply silent_candidates|].
    intros c'. by apply silent_report_dry_run.
  - intros to_follow to_unfollow st' Hsome Hne Hcand.
    destruct token as [[|c token]|]; [done| |done].
    rewrite main_with_token. erewrite bind_ret by done.
    unfold report, print, emit. simpl. rewrite !bind_run. simpl.
    by rewrite <- !app_assoc.
Qed.

(** *** The action loops *)

Lemma follow_user_run user st resp w :
  send (follow_request user) (world st) = (inr resp, w) →
  follow_user user st
  = (Ret (bool_decide (status_code resp = 204)),
     State w (trace st ++ [Http (follow_request user)])).
Proof.
  intros Hsend. unfold follow_user.
  by erewrite bind_ret by (by apply session_ok).
Qed.

Lemma unfollow_user_run user st resp w :
  send (unfollow_request user) (world st) = (inr resp, w) →
  unfollow_user user st
  = (Ret (bool_decide (status_code resp = 204)),
     State w (trace st ++ [Http (unfollow_request user)])).
Proof.
  intros Hsend. unfold unfollow_user.
  by erewrite bind_ret by (by apply session_ok).
Qed.

Lemma follow_body_run user st resp w :
  send (follow_request user) (world st) = (inr resp, w) →
  follow_body user st
  = (Ret tt,
     State w (trace st ++
              item_events "[ACTION] Following " "[SUCCESS] Followed "
                (follow_request user) user (status_code resp))).
Proof.
  intros Hsend. unfold follow_body, item_events.
  rewrite bind_run. simpl.
  erewrite bind_ret by (by apply follow_user_run).
  case_bool_decide; rewrite !bind_run; simpl;
    unfold sleep_uniform, emit; simpl; by rewrite <- !app_assoc.
Qed.

Lemma unfollow_body_run user st resp w :
  send (unfollow_request user) (world st) = (inr resp, w) →
  unfollow_body user st
  = (Ret tt,
     State w (trace st ++
              item_events "[ACTION] Unfollowing " "[SUCCESS] Unfollowed "
                (unfollow_request user) user (status_code resp))).
Proof.
  intros Hsend. unfold unfollow_body, item_events.
  rewrite bind_run. simpl.
  erewrite bind_ret by (by apply unfollow_user_run).
  case_bool_decide; rewrite !bind_run; simpl;
    unfold sleep_uniform, emit; simpl; by rewrite <- !app_assoc.
Qed.

(** C7.  In either loop of the execute branch, an item whose call is
    answered counts as succeeded exactly when the status is 204 (this is
    what [follow_user] and [unfollow_user] return, and the only thing
    that decides whether the [SUCCESS] line is printed); whatever the
    status, the iteration ends normally and the loop goes on with the
    next identifier.  The two loops are independent: each half only asks
    that its own call be answered. *)
Theorem action_status_non_fatal :
  (∀ user rest (st : state W) resp w,
     send (follow_request user) (world st) = (inr resp, w) →
     ((follow_user user st).1 = Ret true ↔ status_code resp = 204) ∧
     for_each (user :: rest) follow_body st
     = for_each rest follow_body
         (State w
            (trace st ++
             [Print [Lit "[ACTION] Following "; Lit user];
              Http (follow_request user)]
             ++ (if bool_decide (status_code resp = 204)
                 then [Print [Lit "[SUCCESS] Followed "; Lit user]] else [])
             ++ [Pace 2 5]))) ∧
  (∀ user rest (st : state W) resp w,
     send (unfollow_request user) (world st) = (inr resp, w) →
     ((unfollow_user user st).1 = Ret true ↔ status_code resp = 204) ∧
     for_each (user :: rest) unfollow_body st
     = for_each rest unfollow_body
         (State w
            (trace st ++
             [Print [Lit "[ACTION] Unfollowing "; Lit user];
              Http (unfollow_request user)]
             ++ (if bool_decide (status_code resp = 204)
                 then [Print [Lit "[SUCCESS] Unfollowed "; Lit user]] else [])
             ++ [Pace 2 5]))).
Proof.
  split; intros user rest st resp w Hsend; split.
  - rewrite (follow_user_run _ _ _ _ Hsend). simpl.
    case_bool_decide; naive_solver.
  - simpl. by erewrite bind_ret by (by apply follow_body_run).
  - rewrite (unfollow_user_run _ _ _ _ Hsend). simpl.
    case_bool_decide; naive_solver.
  - simpl. by erewrite bind_ret by (by apply unfollow_body_run).
Qed.

(** *** The order of the mutation calls *)

Lemma calls_bind_silent {A B} (m : M W A) (k : A → M W B) rqs :
  calls m rqs → (∀ a, silent (k a)) → calls (m ≫= k) rqs.
Proof.
  intros Hm Hk st. rewrite bind_run.
  specialize (Hm st). destruct (m st) as [[a|e|g] st']; simpl in *; [|done..].
  by rewrite Hk.
Qed.

Lemma calls_after_print {A} line (m : M W A) rqs :
  calls m rqs → calls (print line;; m) rqs.
Proof. intros Hm st. rewrite bind_run. simpl. rewrite Hm. simpl. by rewrite mutations_snoc_quiet. Qed.

Lemma calls_session rq : req_method rq ≠ GET → calls (session rq) [rq].
Proof. intros Hrq st. rewrite session_trace. by apply mutations_snoc_call. Qed.

Lemma silent_sleep_uniform lo hi : silent (sleep_uniform lo hi).
Proof. by apply silent_emit. Qed.

Lemma calls_follow_body user : calls (follow_body user) [follow_request user].
Proof.
  unfold follow_body, follow_user. apply calls_after_print.
  repeat (apply calls_bind_silent; [| intros ?]).
  - by apply calls_session.
  - apply silent_ret.
  - pose proof silent_sleep_uniform. silent_steps.
Qed.

Lemma calls_unfollow_body user :
  calls (unfollow_body user) [unfollow_request user].
Proof.
  unfold unfollow_body, unfollow_user. apply calls_after_print.
  repeat (apply calls_bind_silent; [| intros ?]).
  - by apply calls_session.
  - apply silent_ret.
  - pose proof silent_sleep_uniform. silent_steps.
Qed.

(** A loop whose body sends one request per item has sent, when it ends,
    the requests of a prefix of its items, in order; of all of them when
    it ends normally. *)
Lemma for_each_calls (loop_body : string → M W unit) (rq : string → request) :
  (∀ user, calls (loop_body user) [rq user]) →
  ∀ users st, ∃ reached,
    reached `prefix_of` users ∧
    mutations (trace (for_each users loop_body st).2)
    = mutations (trace st) ++ (rq <$> reached) ∧
    ((for_each users loop_body st).1 = Ret tt → reached = users).
Proof.
  intros Hbody users. induction users as [|user rest IH]; intros st.
  - exists []. simpl. by rewrite app_nil_r.
  - simpl. rewrite bind_run. specialize (Hbody user st).
    destruct (loop_body user st) as [[[]|e|g] st1]; simpl in *.
    + destruct (IH st1) as (reached & Hpre & Hcalls & Hall).
      exists (user :: reached). split_and!.
      * by apply prefix_cons.
      * rewrite Hcalls, Hbody. simpl. by rewrite <- app_assoc.
      * intros ->%Hall. done.
    + exists [user]. split_and!; [|done..].
      apply prefix_cons, prefix_nil.
    + exists [user]. split_and!; [|done..].
      apply prefix_cons, prefix_nil.
Qed.

Lemma loops_calls to_follow to_unfollow st :
  let r := (for_each to_follow follow_body;;
            for_each to_unfollow unfollow_body) st in
  let plan := (follow_request <$> to_follow)
              ++ (unfollow_request <$> to_unfollow) in
  ∃ reached,
    reached `prefix_of` plan ∧
    mutations (trace r.2) = mutations (trace st) ++ reached ∧
    (r.1 = Ret tt → reached = plan).
Proof.
  intros r plan. subst r plan. rewrite bind_run.
  destruct (for_each_calls _ _ calls_follow_body to_follow st)
    as (r1 & Hpre1 & Hcalls1 & Hall1).
  destruct (for_each to_follow follow_body st) as [[[]|e|g] st2]; simpl in *.
  - destruct (for_each_calls _ _ calls_unfollow_body to_unfollow st2)
      as (r2 & Hpre2 & Hcalls2 & Hall2).
    rewrite Hall1 in * by done.
    exists ((follow_request <$> to_follow) ++ (unfollow_request <$> r2)).
    split_and!.
    + apply prefix_app. by apply prefix_fmap.
    + by rewrite Hcalls2, Hcalls1, <- app_assoc.
    + intros ->%Hall2. done.
  - exists (follow_request <$> r1). split_and!; [|done..].
    apply prefix_app_r. by apply prefix_fmap.
  - exists (follow_request <$> r1). split_and!; [|done..].
    apply prefix_app_r. by apply prefix_fmap.
Qed.

Lemma execute_calls a to_follow to_unfollow st :
  mode a = Execute →
  ∃ reached,
    reached `prefix_of` (follow_request <$> to_follow)
                        ++ (unfollow_request <$> to_unfollow) ∧
    mutations (trace (report a (to_follow, to_unfollow) st).2)
    = mutations (trace st) ++ reached ∧
    ((report a (to_follow, to_unfollow) st).1 = Ret tt →
     reached = (follow_request <$> to_follow)
               ++ (unfollow_request <$> to_unfollow)).
Proof.
  intros Hmode. unfold report. rewrite Hmode.
  rewrite bind_run. simpl. rewrite bind_run. simpl.
  match goal with
  | |- context [ (_ ≫= _) ?s ] =>
      destruct (loops_calls to_follow to_unfollow s)
        as (reached & Hpre & Hcalls & Hall)
  end.
  exists reached. split_and!; [done| |done].
  rewrite Hcalls. simpl. by rewrite !mutations_snoc_quiet.
Qed.

(** C9.  In execute mode, with candidate lists [to_follow] and
    [to_unfollow], the mutation calls of the run are, in order, those of a
    prefix of "one follow call per item of [to_follow], in list order,
    then one unfollow call per item of [to_unfollow], in list order" (so
    no unfollow call comes before the last follow call), and of the whole
    of it when the run ends normally. *)
Theorem execute_follows_then_unfollows
    max_follow max_unfollow c token fuel st to_follow to_unfollow st1 :
  let a := Args Execute max_follow max_unfollow in
  let r := main a (Some (String c token)) fuel st in
  let plan := (follow_request <$> to_follow)
              ++ (unfollow_request <$> to_unfollow) in
  candidates a fuel st = (Ret (to_follow, to_unfollow), st1) →
  ∃ reached,
    reached `prefix_of` plan ∧
    mutations (trace r.2) = mutations (trace st) ++ reached ∧
    (r.1 = Ret tt → reached = plan).
Proof.
  intros a r plan Hcand. subst r.
  rewrite main_with_token. erewrite bind_ret by done.
  pose proof (silent_candidates a fuel st) as Hsilent.
  rewrite Hcand in Hsilent. simpl in Hsilent. rewrite <- Hsilent.
  by apply execute_calls.
Qed.

(** *** The paginated fetch *)

Lemma page_requests_snoc url page n :
  page_requests url page (S n)
  = page_requests url page n ++ [page_request url (page + Z.of_nat n)].
Proof.
  revert page. induction n as [|n IH]; intros page.
  - simpl. by rewrite Z.add_0_r.
  - change (page_requests url page (S (S n)))
      with (page_request url page :: page_requests url (page + 1) (S n)).
    rewrite IH, Nat2Z.inj_succ.
    replace (page + 1 + Z.of_nat n) with (page + Z.succ (Z.of_nat n)) by lia.
    done.
Qed.

Lemma add_logins_run items logins users (st : state W) :
  Forall2 (λ item login, subscript item "login" = inr (JStr login))
    items logins →
  add_logins items users st = (Ret (users ∪ list_to_set logins), st).
Proof.
  intros Hitems. revert users.
  induction Hitems as [|item login items logins Hitem Hrest IH]; intros users.
  - simpl. rewrite ret_run. do 2 f_equal. by rewrite (right_id_L ∅ (∪)).
  - simpl. unfold add_login. rewrite Hitem. simpl.
    rewrite bind_run. simpl. rewrite IH. do 2 f_equal.
    apply set_eq. intros x. rewrite !elem_of_union. tauto.
Qed.

(** One turn of the loop on a page that has entries. *)
Lemma get_paginated_page fuel url users page st r logins w :
  is_page r logins → logins ≠ [] →
  send (page_request url page) (world st) = (inr r, w) →
  get_paginated_from (S fuel) url users page st
  = get_paginated_from fuel url (users ∪ list_to_set logins) (page + 1)
      (State w (trace st ++ [Http (page_request url page)])).
Proof.
  intros (Hstatus & items & Hbody & Hitems) Hne Hsend. simpl.
  erewrite bind_ret by (by apply session_ok).
  rewrite bool_decide_false by (by intros []).
  unfold json_of. rewrite Hbody, bind_run. simpl.
  destruct Hitems as [|item login items logins Hitem Hitems]; [done|].
  cbn [negb].
  by erewrite bind_ret
    by (apply (add_logins_run _ (login :: logins)); by constructor).
Qed.

Lemma get_paginated_pages url (pages : list (response * list string)) :
  ∀ rqs rs fuel users page st w',
    Forall (λ pg, is_page pg.1 pg.2 ∧ pg.2 ≠ []) pages →
    answers (world st)
      (page_requests url page (length pages) ++ rqs) (pages.*1 ++ rs) w' →
    ∃ w, answers w rqs rs w' ∧
      get_paginated_from (length pages + fuel) url users page st
      = get_paginated_from fuel url
          (users ∪ list_to_set (concat pages.*2))
          (page + Z.of_nat (length pages))
          (State w (trace st
                    ++ (Http <$> page_requests url page (length pages)))).
Proof.
  induction pages as [|[r logins] pages IH];
    intros rqs rs fuel users page st w' Hpages Hanswers.
  - exists (world st). split; [done|]. simpl.
    rewrite app_nil_r, Z.add_0_r, (right_id_L ∅ (∪)).
    by destruct st.
  - apply Forall_cons in Hpages as [[Hpage Hne] Hpages].
    destruct Hanswers as (w1 & Hsend & Hanswers).
    change (length ((r, logins) :: pages) + fuel)%nat
      with (S (length pages + fuel)).
    erewrite get_paginated_page by done.
    edestruct (IH rqs rs fuel) as (w & Hrest & ->); [done..|].
    exists w. split; [done|].
    cbn [length page_requests fmap list_fmap concat snd trace].
    rewrite <- app_assoc, Nat2Z.inj_succ, list_to_set_app_L, (assoc_L (∪)).
    by replace (page + 1 + Z.of_nat (length pages))
      with (page + Z.succ (Z.of_nat (length pages))) by lia.
Qed.

(** The fetch up to its last request: after the pages with entries, the
    loop is about to ask for page [1 + length pages], which the world
    answers with [last]. *)
Lemma get_paginated_before_last url pages last fuel st w' :
  Forall (λ pg, is_page pg.1 pg.2 ∧ pg.2 ≠ []) pages →
  answers (world st)
    (page_requests url 1 (S (length pages))) (pages.*1 ++ [last]) w' →
  (length pages < fuel)%nat →
  ∃ w,
    send (page_request url (1 + Z.of_nat (length pages))) w = (inr last, w') ∧
    get_paginated fuel url st
    = get_paginated_from (fuel - length pages) url
        (list_to_set (concat pages.*2)) (1 + Z.of_nat (length pages))
        (State w (trace st ++ (Http <$> page_requests url 1 (length pages)))).
Proof.
  intros Hpages Hanswers Hfuel. rewrite page_requests_snoc in Hanswers.
  unfold get_paginated.
  destruct (get_paginated_pages url pages _ _ (fuel - length pages) ∅ 1 st w'
              Hpages Hanswers) as (w & (w1 & Hsend & Hend) & Hrun).
  simpl in Hend. subst w'.
  replace (length pages + (fuel - length pages))%nat with fuel in Hrun by lia.
  exists w. split; [done|]. by rewrite Hrun, (left_id_L ∅ (∪)).
Qed.

(** C3.  When the world answers pages 1, 2, ..., k with successful pages
    that have entries and page k+1 with a successful page without entries,
    the fetch (given a budget of more than k pages) requests exactly the
    pages 1 to k+1, in this order, and returns exactly the set of the
    logins of the first k pages. *)
Theorem pagination_stops_at_empty_page
    url (pages : list (response * list string)) last fuel st w' :
  Forall (λ pg, is_page pg.1 pg.2 ∧ pg.2 ≠ []) pages →
  is_page last [] →
  answers (world st)
    (page_requests url 1 (S (length pages))) (pages.*1 ++ [last]) w' →
  (length pages < fuel)%nat →
  get_paginated fuel url st
  = (Ret (list_to_set (concat pages.*2)),
     State w' (trace st
               ++ (Http <$> page_requests url 1 (S (length pages))))).
Proof.
  intros Hpages (Hstatus & items & Hbody & Hitems) Hanswers Hfuel.
  destruct (get_paginated_before_last url pages last fuel st w')
    as (w & Hsend & ->); [done..|].
  destruct (fuel - length pages)%nat as [|fuel'] eqn:Hleft; [lia|].
  apply Forall2_nil_inv_r in Hitems as ->.
  cbn [get_paginated_from].
  erewrite bind_ret by (by apply session_ok).
  rewrite bool_decide_false by (by intros []).
  unfold json_of. rewrite Hbody.
  erewrite bind_ret by apply ret_run.
  cbn [truthy negb]. rewrite ret_run.
  by rewrite page_requests_snoc, fmap_app, app_assoc.
Qed.

(** C4.  When the world answers pages 1, 2, ..., k with successful pages
    that have entries and page k+1 with a status other than 200, the fetch
    (given a budget of more than k pages) does not raise: it requests
    the pages 1 to k+1 and no more, prints the error body, and returns
    the set of the logins of the first k pages. *)
Theorem pagination_stops_at_error
    url (pages : list (response * list string)) last fuel st w' :
  Forall (λ pg, is_page pg.1 pg.2 ∧ pg.2 ≠ []) pages →
  status_code last ≠ 200 →
  answers (world st)
    (page_requests url 1 (S (length pages))) (pages.*1 ++ [last]) w' →
  (length pages < fuel)%nat →
  get_paginated fuel url st
  = (Ret (list_to_set (concat pages.*2)),
     State w' (trace st
               ++ (Http <$> page_requests url 1 (S (length pages)))
               ++ [Print [Lit "[ERROR] Failed to fetch: ";
                          Lit (text last)]])).
Proof.
  intros Hpages Hstatus Hanswers Hfuel.
  destruct (get_paginated_before_last url pages last fuel st w')
    as (w & Hsend & ->); [done..|].
  destruct (fuel - length pages)%nat as [|fuel'] eqn:Hleft; [lia|].
  cbn [get_paginated_from].
  erewrite bind_ret by (by apply session_ok).
  rewrite bool_decide_true by done.
  erewrite bind_ret by reflexivity. rewrite ret_run. cbn [world trace].
  by rewrite page_requests_snoc, fmap_app, <- !app_assoc.
Qed.

(** *** The rate-limit guard *)

Lemma check_rate_limit_fields st resp w remaining reset :
  send rate_request (world st) = (inr resp, w) →
  has_rate resp remaining reset →
  check_rate_limit st
  = (remaining_n ← lift (as_int remaining);
     if remaining_n <? 5 then
       t ← time_now;
       reset_n ← lift (as_int reset);
       let wait_time := Z.max (reset_n - t) 0 in
       print [Lit "[WARNING] Rate limit low. Sleeping "; ShowInt wait_time;
              Lit " seconds..."];;
       time_sleep wait_time
     else mret tt)
      (State w (trace st ++ [Http rate_request;
                             Print [Lit "[INFO] API remaining: ";
                                    ShowJson remaining]])).
Proof.
  intros Hsend (data & rate & Hbody & Hrate & Hremaining & Hreset).
  unfold check_rate_limit.
  erewrite bind_ret by (by apply session_ok).
  unfold json_of. rewrite Hbody.
  erewrite bind_ret by apply ret_run.
  rewrite Hrate. erewrite bind_ret by apply ret_run.
  rewrite Hremaining. erewrite bind_ret by apply ret_run.
  erewrite bind_ret by apply ret_run.
  rewrite Hreset. erewrite bind_ret by apply ret_run.
  erewrite bind_ret by reflexivity.
  cbn [world trace]. by rewrite <- app_assoc.
Qed.

Lemma sleep_max_eq : sleep_max = (2 ^ 63 - 1) `div` 10 ^ 9.
Proof. by vm_compute. Qed.


Lemma time_sleep_overflow n (st : state W) :
  sleep_max < n → time_sleep n st = (Raise OverflowError, st).
Proof.
  intros Hhi. unfold time_sleep.
  rewrite (proj2 (Z.ltb_ge n 0)) by (unfold sleep_max in Hhi; lia).
  by rewrite (proj2 (Z.ltb_lt sleep_max n)) by done.
Qed.

(** The guard on a low quota, up to its call of [time.sleep]. *)
Lemma check_rate_limit_low st resp w1 (remaining reset : Z) t w2 :
  send rate_request (world st) = (inr resp, w1) →
  has_rate resp (JInt remaining) (JInt reset) →
  now w1 = (t, w2) →
  remaining < 5 →
  check_rate_limit st
  = time_sleep (Z.max (reset - t) 0)
      (State w2
         (trace st ++
          [Http rate_request;
           Print [Lit "[INFO] API remaining: "; ShowJson (JInt remaining)];
           Print [Lit "[WARNING] Rate limit low. Sleeping ";
                  ShowInt (Z.max (reset - t) 0); Lit " seconds..."]])).
Proof.
  intros Hsend Hrate Hnow Hlow.
  rewrite (check_rate_limit_fields _ _ _ _ _ Hsend Hrate).
  cbn [as_int lift]. erewrite bind_ret by apply ret_run.
  rewrite (proj2 (Z.ltb_lt _ _)) by done.
  rewrite bind_run. unfold time_now. cbn [world trace]. rewrite Hnow.
  erewrite bind_ret by apply ret_run.
  erewrite bind_ret by reflexivity.
  cbn [world trace]. by rewrite <- !app_assoc.
Qed.




Lemma main_aborts_with_guard a c token fuel st e st' :
  check_rate_limit st = (Raise e, st') →
  main a (Some (String c token)) fuel st = (Raise e, st').
Proof.
  intros Hguard. rewrite main_with_token. unfold candidates.
  apply bind_raise. by apply bind_raise.
Qed.



(** *** What a run can add to the trace *)

Lemma appends_ret P {A} (a : A) : appends P (mret a : M W A).
Proof. intros st. exists []. by rewrite app_nil_r. Qed.

Lemma appends_raise P {A} e : appends P (raise e : M W A).
Proof. intros st. exists []. by rewrite app_nil_r. Qed.

Lemma appends_stuck P {A} g : appends P (stuck g : M W A).
Proof. intros st. exists []. by rewrite app_nil_r. Qed.

Lemma appends_bind P {A B} (m : M W A) (k : A → M W B) :
  appends P m → (∀ a, appends P (k a)) → appends P (m ≫= k).
Proof.
  intros Hm Hk st. rewrite bind_run.
  destruct (Hm st) as (evs & Htrace & Hevs).
  destruct (m st) as [[a|e|g] st']; simpl in *; [|by exists evs..].
  destruct (Hk a st') as (evs' & Htrace' & Hevs').
  exists (evs ++ evs'). split.
  - by rewrite Htrace', Htrace, app_assoc.
  - by apply Forall_app.
Qed.

Lemma appends_emit (P : event → Prop) ev : P ev → appends P (emit ev : M W unit).
Proof. intros Hev st. exists [ev]. split; [done|]. by apply Forall_singleton. Qed.

Lemma appends_lift P {A} (r : exn + A) : appends P (lift r : M W A).
Proof. destruct r; [apply appends_raise | apply appends_ret]. Qed.

Lemma appends_json_of P r : appends P (json_of r).
Proof.
  unfold json_of. destruct (body r); [apply appends_ret | apply appends_raise].
Qed.

Lemma appends_time_now P : appends P time_now.
Proof.
  intros st. exists []. unfold time_now.
  destruct (now (world st)). simpl. by rewrite app_nil_r.
Qed.

Lemma appends_session (P : event → Prop) rq : P (Http rq) → appends P (session rq).
Proof.
  intros Hrq st. exists [Http rq]. rewrite session_trace.
  split; [done|]. by apply Forall_singleton.
Qed.

Lemma appends_for_each P {A} (xs : list A) (loop_body : A → M W unit) :
  (∀ x, appends P (loop_body x)) → appends P (for_each xs loop_body).
Proof.
  intros Hbody. induction xs as [|x xs IH]; simpl.
  - apply appends_ret.
  - apply appends_bind; [apply Hbody | by intros _].
Qed.

Lemma script_time_sleep n : appends script_event (time_sleep n).
Proof.
  unfold time_sleep. destruct (Z.ltb_spec n 0); [apply appends_raise|].
  destruct (sleep_max <? n); [apply appends_raise|].
  by apply appends_emit, ev_sleep.
Qed.

Ltac appends_steps :=
  repeat first
    [ solve [auto using appends_for_each]
    | apply appends_ret | apply appends_raise | apply appends_stuck
    | apply appends_lift | apply appends_json_of | apply appends_time_now
    | apply appends_emit; by auto using script_event
    | apply appends_session; by auto using script_event
    | apply appends_bind; [| intros ?]
    | case_match ].

Lemma script_check_rate_limit : appends script_event check_rate_limit.
Proof.
  unfold check_rate_limit, print. pose proof script_time_sleep.
  appends_steps.
Qed.

Lemma script_add_logins data users :
  appends script_event (add_logins data users).
Proof.
  revert users. induction data as [|user rest IH]; intros users; simpl.
  - apply appends_ret.
  - unfold add_login. appends_steps; apply IH.
Qed.

Lemma script_followers_pages fuel users page :
  appends script_event
    (get_paginated_from fuel (GITHUB_API +:+ "/user/followers") users page).
Proof.
  revert users page. induction fuel as [|fuel IH]; intros users page; simpl.
  - apply appends_stuck.
  - unfold collect, print. pose proof script_add_logins.
    appends_steps; first [apply IH | done | apply appends_session, ev_followers].
Qed.

Lemma script_following_pages fuel users page :
  appends script_event
    (get_paginated_from fuel (GITHUB_API +:+ "/user/following") users page).
Proof.
  revert users page. induction fuel as [|fuel IH]; intros users page; simpl.
  - apply appends_stuck.
  - unfold collect, print. pose proof script_add_logins.
    appends_steps; first [apply IH | done | apply appends_session, ev_following].
Qed.

Lemma script_follow_body user : appends script_event (follow_body user).
Proof.
  unfold follow_body, follow_user, print, sleep_uniform. appends_steps.
  apply appends_session, ev_follow.
Qed.

Lemma script_unfollow_body user : appends script_event (unfollow_body user).
Proof.
  unfold unfollow_body, unfollow_user, print, sleep_uniform. appends_steps.
  apply appends_session, ev_unfollow.
Qed.

(** X1.  Whatever the world answers and however the run ends, [main] keeps
    the events already recorded and adds only requests to its five
    endpoints (the rate limit, a page of followers or of following, a
    follow, an unfollow), printed lines, a sleep of a non-negative number
    of seconds, and pacing sleeps drawn from [2, 5]. *)
Theorem main_events a token fuel : appends script_event (main a token fuel).
Proof.
  unfold main, get_followers, get_following, get_paginated, print.
  pose proof script_check_rate_limit.
  pose proof script_followers_pages. pose proof script_following_pages.
  pose proof script_follow_body. pose proof script_unfollow_body.
  appends_steps.
Qed.

(** *** More on the paginated fetch *)

Lemma requests_app tr1 tr2 :
  requests (tr1 ++ tr2) = requests tr1 ++ requests tr2.
Proof. apply omap_app. Qed.

Lemma add_logins_state items users (st : state W) :
  (add_logins items users st).2 = st.
Proof.
  revert users. induction items as [|item items IH]; intros users; [done|].
  cbn [add_logins]. rewrite bind_run. unfold add_login.
  destruct (subscript item "login") as [e|[| | |login| |]]; try done.
  apply IH.
Qed.

Lemma collect_state data users (st : state W) :
  (collect data users st).2 = st.
Proof. destruct data; try done. apply add_logins_state. Qed.

Lemma get_paginated_from_requests fuel url users page st :
  ∃ n, (n ≤ fuel)%nat ∧
    requests (trace (get_paginated_from fuel url users page st).2)
    = requests (trace st) ++ page_requests url page n.
Proof.
  revert users page st.
  induction fuel as [|fuel IH]; intros users page st.
  { exists 0%nat. split; [done|]. simpl. by rewrite app_nil_r. }
  assert (∀ tr, requests tr = requests (trace st ++ [Http (page_request url page)]) →
            ∃ n, (n ≤ S fuel)%nat ∧
              requests tr = requests (trace st) ++ page_requests url page n)
    as Hone.
  { intros tr ->. exists 1%nat. split; [lia|]. by rewrite requests_app. }
  simpl. rewrite bind_run, session_run.
  destruct (send _ (world st)) as [[e|r] w]; cbn [fst snd]; [by apply Hone|].
  case_bool_decide.
  { apply Hone. simpl. rewrite (requests_app (_ ++ _)). apply app_nil_r. }
  rewrite bind_run. unfold json_of.
  destruct (body r) as [data|]; [|by apply Hone].
  rewrite ret_run. destruct (truthy data); cbn [negb]; [|by apply Hone].
  rewrite bind_run.
  pose proof (collect_state data users
                (State w (trace st ++ [Http (page_request url page)]))) as Hsame.
  destruct (collect data users _) as [[users'|e|g] st1]; simpl in Hsame;
    subst st1; [|by apply Hone..].
  destruct (IH users' (page + 1)
              (State w (trace st ++ [Http (page_request url page)])))
    as (n & Hn & ->).
  exists (S n). split; [lia|].
  simpl. by rewrite requests_app, <- app_assoc.
Qed.

(** X2.  Whatever the world answers and however the fetch ends, the
    requests [get_paginated] sends are those for the pages 1, 2, ..., n of
    its URL, in this order, each with [per_page = 100]: no page is skipped,
    repeated or asked out of order. *)
Theorem get_paginated_requests fuel url st :
  ∃ n, (n ≤ fuel)%nat ∧
    requests (trace (get_paginated fuel url st).2)
    = requests (trace st) ++ page_requests url 1 n.
Proof. apply get_paginated_from_requests. Qed.

Lemma get_paginated_from_200 fuel url users page st r data w :
  send (page_request url page) (world st) = (inr r, w) →
  status_code r = 200 → body r = Some data →
  get_paginated_from (S fuel) url users page st
  = (if negb (truthy data) then mret users
     else users' ← collect data users;
          get_paginated_from fuel url users' (page + 1))
      (State w (trace st ++ [Http (page_request url page)])).
Proof.
  intros Hsend Hstatus Hbody. simpl.
  erewrite bind_ret by (by apply session_ok).
  rewrite bool_decide_false by (by intros []).
  unfold json_of. rewrite Hbody. by erewrite bind_ret by apply ret_run.
Qed.

Lemma add_logins_raise good logins bad rest e users (st : state W) :
  Forall2 (λ item login, subscript item "login" = inr (JStr login))
    good logins →
  subscript bad "login" = inl e →
  add_logins (good ++ bad :: rest) users st = (Raise e, st).
Proof.
  intros Hgood Hbad. revert users.
  induction Hgood as [|item login good logins Hitem Hgood IH]; intros users.
  - cbn [app add_logins]. apply bind_raise. unfold add_login. by rewrite Hbad.
  - cbn [app add_logins]. unfold add_login at 1. rewrite Hitem.
    erewrite bind_ret; [apply IH|]. by erewrite bind_ret by apply ret_run.
Qed.

(** X3.  A page answered with status 200 whose body is not JSON makes the
    fetch raise [JSONDecodeError] right after that request: unlike a
    non-200 status, it is not tolerated, and the logins accumulated from the
    pages before it are not returned. *)
Theorem pagination_raises_on_bad_json
    url (pages : list (response * list string)) last fuel st w' :
  Forall (λ pg, is_page pg.1 pg.2 ∧ pg.2 ≠ []) pages →
  status_code last = 200 → body last = None →
  answers (world st)
    (page_requests url 1 (S (length pages))) (pages.*1 ++ [last]) w' →
  (length pages < fuel)%nat →
  get_paginated fuel url st
  = (Raise JSONDecodeError,
     State w' (trace st
               ++ (Http <$> page_requests url 1 (S (length pages))))).
Proof.
  intros Hpages Hstatus Hbody Hanswers Hfuel.
  destruct (get_paginated_before_last url pages last fuel st w')
    as (w & Hsend & ->); [done..|].
  destruct (fuel - length pages)%nat as [|fuel'] eqn:Hleft; [lia|].
  cbn [get_paginated_from].
  erewrite bind_ret by (by apply session_ok).
  rewrite bool_decide_false by (by intros []).
  unfold json_of. rewrite Hbody.
  erewrite bind_raise by reflexivity. cbn [world trace].
  by rewrite page_requests_snoc, fmap_app, app_assoc.
Qed.

(** X4.  A successful page in which some entry is an object without a
    ["login"] key makes the fetch raise [KeyError "login"], whatever the
    entries before it in the page and the pages before it. *)
Theorem pagination_raises_on_missing_login
    url (pages : list (response * list string)) last
    good logins fields rest fuel st w' :
  Forall (λ pg, is_page pg.1 pg.2 ∧ pg.2 ≠ []) pages →
  status_code last = 200 →
  body last = Some (JArr (good ++ JObj fields :: rest)) →
  Forall2 (λ item login, subscript item "login" = inr (JStr login))
    good logins →
  fields !! "login" = None →
  answers (world st)
    (page_requests url 1 (S (length pages))) (pages.*1 ++ [last]) w' →
  (length pages < fuel)%nat →
  get_paginated fuel url st
  = (Raise (KeyError "login"),
     State w' (trace st
               ++ (Http <$> page_requests url 1 (S (length pages))))).
Proof.
  intros Hpages Hstatus Hbody Hgood Hfields Hanswers Hfuel.
  destruct (get_paginated_before_last url pages last fuel st w')
    as (w & Hsend & ->); [done..|].
  destruct (fuel - length pages)%nat as [|fuel'] eqn:Hleft; [lia|].
  erewrite get_paginated_from_200 by done.
  assert (truthy (JArr (good ++ JObj fields :: rest)) = true) as ->
    by by destruct good.
  cbn [negb collect].
  erewrite bind_raise
    by (eapply add_logins_raise; [done|]; simpl; by rewrite Hfields).
  cbn [world trace].
  by rewrite page_requests_snoc, fmap_app, app_assoc.
Qed.

(** X5.  A successful page whose JSON body is not an array: when the value
    is falsy ([null], [false], [0], the empty string, the empty object) the
    fetch stops there and returns what it has, as for an empty page; when
    it is truthy the fetch raises [TypeError]. *)
Theorem pagination_on_non_array
    url (pages : list (response * list string)) last data fuel st w' :
  Forall (λ pg, is_page pg.1 pg.2 ∧ pg.2 ≠ []) pages →
  status_code last = 200 → body last = Some data →
  (∀ items, data ≠ JArr items) →
  answers (world st)
    (page_requests url 1 (S (length pages))) (pages.*1 ++ [last]) w' →
  (length pages < fuel)%nat →
  get_paginated fuel url st
  = (if truthy data then Raise TypeError
     else Ret (list_to_set (concat pages.*2)),
     State w' (trace st
               ++ (Http <$> page_requests url 1 (S (length pages))))).
Proof.
  intros Hpages Hstatus Hbody Hdata Hanswers Hfuel.
  destruct (get_paginated_before_last url pages last fuel st w')
    as (w & Hsend & ->); [done..|].
  destruct (fuel - length pages)%nat as [|fuel'] eqn:Hleft; [lia|].
  erewrite get_paginated_from_200 by done.
  rewrite page_requests_snoc, fmap_app, app_assoc.
  destruct (truthy data); cbn [negb]; [|done].
  apply bind_raise.
  destruct data; try done. by destruct (Hdata items).
Qed.

(** *** More on the rate-limit guard *)

(** X18.  On a low quota with a reset so far ahead that the wait exceeds
    what [time.sleep] accepts, the guard prints both lines and then raises
    [OverflowError] without sleeping, and [main] ends with that exception
    before any fetch. *)
Theorem rate_limit_sleep_overflow
    a c token fuel st resp w1 (remaining reset : Z) t w2 :
  send rate_request (world st) = (inr resp, w1) →
  has_rate resp (JInt remaining) (JInt reset) →
  now w1 = (t, w2) →
  remaining < 5 → sleep_max < reset - t →
  let st' :=
    State w2
      (trace st ++
       [Http rate_request;
        Print [Lit "[INFO] API remaining: "; ShowJson (JInt remaining)];
        Print [Lit "[WARNING] Rate limit low. Sleeping ";
               ShowInt (reset - t); Lit " seconds..."]]) in
  check_rate_limit st = (Raise OverflowError, st') ∧
  main a (Some (String c token)) fuel st = (Raise OverflowError, st').
Proof.
  intros Hsend Hrate Hnow Hlow Hfar st'.
  assert (check_rate_limit st = (Raise OverflowError, st')) as Hguard.
  { rewrite (check_rate_limit_low _ _ _ _ _ _ _ Hsend Hrate Hnow Hlow).
    rewrite time_sleep_overflow by lia. subst st'.
    rewrite Z.max_l; [done|]. unfold sleep_max in Hfar. lia. }
  split; [done|]. by apply main_aborts_with_guard.
Qed.

(** X6.  When [rate.remaining] is present but is not a number ([null], a
    string, an array or an object), the guard prints the [INFO] line with
    that value and then raises [TypeError] at the comparison with 5: it
    neither reads the clock nor sleeps. *)
Theorem rate_limit_non_numeric_remaining st resp w remaining reset :
  send rate_request (world st) = (inr resp, w) →
  has_rate resp remaining reset →
  as_int remaining = inl TypeError →
  check_rate_limit st
  = (Raise TypeError,
     State w
       (trace st ++
        [Http rate_request;
         Print [Lit "[INFO] API remaining: "; ShowJson remaining]])).
Proof.
  intros Hsend Hrate Hremaining.
  rewrite (check_rate_limit_fields _ _ _ _ _ Hsend Hrate), Hremaining.
  by apply bind_raise.
Qed.

(** X7.  The type of [rate.reset] matters only when the quota is low.  With
    5 or more calls remaining the guard returns without looking at the
    value of [reset], whatever JSON value it is (it must only be present)
    and without reading the clock; with fewer than 5, a [reset] that is not
    a number makes the guard raise [TypeError] after the clock was read and
    before anything is slept. *)
Theorem rate_limit_reset_type st resp w (remaining : Z) reset :
  send rate_request (world st) = (inr resp, w) →
  has_rate resp (JInt remaining) reset →
  (5 ≤ remaining →
   check_rate_limit st
   = (Ret tt,
      State w
        (trace st ++
         [Http rate_request;
          Print [Lit "[INFO] API remaining: "; ShowJson (JInt remaining)]]))) ∧
  (remaining < 5 → as_int reset = inl TypeError →
   check_rate_limit st
   = (Raise TypeError,
      State (now w).2
        (trace st ++
         [Http rate_request;
          Print [Lit "[INFO] API remaining: "; ShowJson (JInt remaining)]]))).
Proof.
  intros Hsend Hrate.
  rewrite (check_rate_limit_fields _ _ _ _ _ Hsend Hrate).
  cbn [as_int lift]. erewrite bind_ret by apply ret_run.
  split.
  - intros Hhigh. by rewrite (proj2 (Z.ltb_ge _ _)) by done.
  - intros Hlow Hreset. rewrite (proj2 (Z.ltb_lt _ _)) by done.
    rewrite bind_run. unfold time_now. cbn [world trace].
    destruct (now w) as [t w2]. rewrite Hreset. by apply bind_raise.
Qed.

(** *** More on the action loops *)

Lemma for_each_answered (loop_body : string → M W unit) verb done rq :
  (∀ user st resp w,
     send (rq user) (world st) = (inr resp, w) →
     loop_body user st
     = (Ret tt,
        State w (trace st
                 ++ item_events verb done (rq user) user (status_code resp)))) →
  ∀ users rs st w',
    answers (world st) (rq <$> users) rs w' →
    for_each users loop_body st
    = (Ret tt, State w' (trace st ++ loop_events verb done rq users rs)).
Proof.
  intros Hbody users.
  induction users as [|user users IH]; intros [|r rs] st w' Hanswers;
    try done.
  - simpl in Hanswers. subst w'. unfold loop_events. simpl.
    rewrite app_nil_r. by destruct st.
  - destruct Hanswers as (w1 & Hsend & Hanswers).
    cbn [for_each]. erewrite bind_ret by (by apply Hbody).
    erewrite IH by done. unfold loop_events. cbn [zip_with concat trace].
    by rewrite <- app_assoc.
Qed.

Lemma for_each_app {A} (xs ys : list A) (loop_body : A → M W unit) st :
  for_each (xs ++ ys) loop_body st
  = (for_each xs loop_body;; for_each ys loop_body) st.
Proof.
  revert st. induction xs as [|x xs IH]; intros st; [done|].
  cbn [app for_each]. rewrite bind_assoc_run, !(bind_run (loop_body x)).
  by destruct (loop_body x st) as [[[]|e|g] st1].
Qed.

Lemma follow_body_raise user st e w :
  send (follow_request user) (world st) = (inl e, w) →
  follow_body user st
  = (Raise e,
     State w (trace st ++ [Print [Lit "[ACTION] Following "; Lit user];
                           Http (follow_request user)])).
Proof.
  intros Hsend. unfold follow_body. rewrite bind_run. simpl.
  apply bind_raise. unfold follow_user. apply bind_raise.
  erewrite session_raise by exact Hsend.
  cbn [trace]. by rewrite <- app_assoc.
Qed.

(** X8.  In execute mode, once the candidate lists are computed, if the
    world answers every follow call and then every unfollow call, then the
    run ends normally, whatever the statuses: after the two counts it adds
    for each item of [to_follow], in order, and then for each item of
    [to_unfollow], the [ACTION] line, the request, the [SUCCESS] line when
    the status is 204, and one pacing sleep. *)
Theorem execute_run_completes
    max_follow max_unfollow c token fuel st to_follow to_unfollow st1
    rs_follow w2 rs_unfollow w3 :
  let a := Args Execute max_follow max_unfollow in
  candidates a fuel st = (Ret (to_follow, to_unfollow), st1) →
  answers (world st1) (follow_request <$> to_follow) rs_follow w2 →
  answers w2 (unfollow_request <$> to_unfollow) rs_unfollow w3 →
  main a (Some (String c token)) fuel st
  = (Ret tt,
     State w3
       (trace st1 ++
        [Print [Lit "[INFO] Users to follow: ";
                ShowInt (Z.of_nat (length to_follow))];
         Print [Lit "[INFO] Users to unfollow: ";
                ShowInt (Z.of_nat (length to_unfollow))]]
        ++ loop_events "[ACTION] Following " "[SUCCESS] Followed "
             follow_request to_follow rs_follow
        ++ loop_events "[ACTION] Unfollowing " "[SUCCESS] Unfollowed "
             unfollow_request to_unfollow rs_unfollow)).
Proof.
  intros a Hcand Hfollow Hunfollow.
  rewrite main_with_token. erewrite bind_ret by done.
  unfold report. cbn [mode a fst snd].
  erewrite bind_ret by reflexivity. erewrite bind_ret by reflexivity.
  erewrite bind_ret
    by (eapply (for_each_answered _ _ _ _ follow_body_run); exact Hfollow).
  erewrite (for_each_answered _ _ _ _ unfollow_body_run)
    by exact Hunfollow.
  cbn [world trace]. by rewrite <- !app_assoc.
Qed.

(** X9.  In execute mode, when the follow call for some candidate raises
    (a transport failure), the run ends with that exception right after
    that request: the candidates after it are not attempted and no unfollow
    call is made. *)
Theorem execute_run_aborts_on_transport_error
    max_follow max_unfollow c token fuel st
    reached user rest to_unfollow st1 rs w2 e w3 :
  let a := Args Execute max_follow max_unfollow in
  candidates a fuel st = (Ret (reached ++ user :: rest, to_unfollow), st1) →
  answers (world st1) (follow_request <$> reached) rs w2 →
  send (follow_request user) w2 = (inl e, w3) →
  main a (Some (String c token)) fuel st
  = (Raise e,
     State w3
       (trace st1 ++
        [Print [Lit "[INFO] Users to follow: ";
                ShowInt (Z.of_nat (length (reached ++ user :: rest)))];
         Print [Lit "[INFO] Users to unfollow: ";
                ShowInt (Z.of_nat (length to_unfollow))]]
        ++ loop_events "[ACTION] Following " "[SUCCESS] Followed "
             follow_request reached rs
        ++ [Print [Lit "[ACTION] Following "; Lit user];
            Http (follow_request user)])).
Proof.
  intros a Hcand Hreached Hsend.
  rewrite main_with_token. erewrite bind_ret by done.
  unfold report. cbn [mode a fst snd].
  erewrite bind_ret by reflexivity. erewrite bind_ret by reflexivity.
  apply bind_raise. rewrite for_each_app.
  erewrite bind_ret
    by (eapply (for_each_answered _ _ _ _ follow_body_run); exact Hreached).
  cbn [for_each]. apply bind_raise.
  erewrite follow_body_raise by exact Hsend.
  cbn [world trace]. by rewrite <- !app_assoc.
Qed.

(** *** More on [main] *)

Lemma session_first P rq {A} (k : response → M W A) st :
  (∀ r, appends P (k r)) →
  ∃ evs, trace ((session rq ≫= k) st).2 = trace st ++ Http rq :: evs.
Proof.
  intros Hk. rewrite bind_run, session_run.
  destruct (send rq (world st)) as [[e|r] w]; cbn [fst snd]; [by exists []|].
  destruct (Hk r (State w (trace st ++ [Http rq]))) as (evs & -> & _).
  exists evs. cbn [trace]. by rewrite <- app_assoc.
Qed.

(** X10.  A token that is the empty string is treated exactly like a
    missing one.  With any other token the first thing the run does is the
    rate-limit request: whatever happens next, nothing is printed, fetched
    or changed before it. *)
Theorem main_starts_with_guard a fuel st :
  main a (Some "") fuel st = main a None fuel st ∧
  ∀ c token, ∃ evs,
    trace (main a (Some (String c token)) fuel st).2
    = trace st ++ Http rate_request :: evs.
Proof.
  split; [done|]. intros c token.
  unfold main, check_rate_limit. rewrite bind_assoc_run.
  apply (session_first script_event). intros r.
  unfold get_followers, get_following, get_paginated, print.
  pose proof script_time_sleep.
  pose proof script_followers_pages. pose proof script_following_pages.
  pose proof script_follow_body. pose proof script_unfollow_body.
  appends_steps.
Qed.

Lemma candidates_run a fuel st st1 followers st2 following st3 :
  check_rate_limit st = (Ret tt, st1) →
  get_followers fuel st1 = (Ret followers, st2) →
  get_following fuel st2 = (Ret following, st3) →
  candidates a fuel st
  = (Ret (reconcile followers following (max_follows a) (max_unfollows a)),
     st3).
Proof.
  intros Hguard Hfollowers Hfollowing. unfold candidates.
  erewrite bind_ret by done. erewrite bind_ret by done.
  by erewrite bind_ret by done.
Qed.

Lemma candidates_reconcile a fuel st c st' :
  candidates a fuel st = (Ret c, st') →
  ∃ followers following,
    c = reconcile followers following (max_follows a) (max_unfollows a).
Proof.
  unfold candidates. rewrite bind_run.
  destruct (check_rate_limit st) as [[[]|e|g] st1]; [|done..].
  rewrite bind_run.
  destruct (get_followers fuel st1) as [[followers|e|g] st2]; [|done..].
  rewrite bind_run.
  destruct (get_following fuel st2) as [[following|e|g] st3]; [|done..].
  rewrite ret_run. intros [= <- _]. by exists followers, following.
Qed.

End Runs.


(** ** The set reconciler *)

Section Slice.
Context {A : Type}.
Implicit Types (l : list A) (n : Z).

Lemma slice_to_sublist l n : slice_to l n `sublist_of` l.
Proof. unfold slice_to. case_match; apply sublist_take. Qed.

Lemma slice_to_elem l n x : x ∈ slice_to l n → x ∈ l.
Proof. intros Hx. eapply elem_of_sublist; [done | apply slice_to_sublist]. Qed.

Lemma slice_to_length l n : 0 ≤ n → (length (slice_to l n) ≤ Z.to_nat n)%nat.
Proof.
  intros Hn. unfold slice_to.
  destruct (Z.ltb_spec n 0) as [?|_]; [lia|].
  rewrite length_take. lia.
Qed.
Lemma slice_to_all l n : Z.of_nat (length l) ≤ n → slice_to l n = l.
Proof.
  intros Hn. unfold slice_to.
  destruct (Z.ltb_spec n 0) as [?|_]; [lia|]. apply take_ge. lia.
Qed.

Lemma slice_to_length_exact l n :
  Z.of_nat (length (slice_to l n))
  = if n <? 0 then Z.max (Z.of_nat (length l) + n) 0
    else Z.min n (Z.of_nat (length l)).
Proof.
  unfold slice_to. destruct (Z.ltb_spec n 0); rewrite length_take; lia.
Qed.

Lemma slice_to_nil l n : 0 < n → slice_to l n = [] ↔ l = [].
Proof.
  intros Hn. split;
    [|intros ->; unfold slice_to; case_match; apply take_nil].
  intros Hnil. apply (f_equal length) in Hnil.
  pose proof (slice_to_length_exact l n) as Hlen.
  rewrite Hnil in Hlen. destruct (Z.ltb_spec n 0); [lia|].
  apply length_zero_iff_nil. simpl in Hlen. lia.
Qed.

Lemma slice_to_NoDup l n : NoDup l → NoDup (slice_to l n).
Proof. intros Hl. eapply sublist_NoDup, slice_to_sublist. done. Qed.

End Slice.

Section Reconciler.
Context {W : Type} `{!World W}.
Implicit Types (F G : gset string).

Lemma elem_of_set_to_list F x : x ∈ set_to_list F ↔ x ∈ F.
Proof. by rewrite (set_to_list_perm F), elem_of_elements. Qed.

Lemma slice_difference F G n x :
  x ∈ slice_to (set_to_list (F ∖ G)) n → x ∈ F ∧ x ∉ G.
Proof.
  intros Hx%slice_to_elem%elem_of_set_to_list.
  by apply elem_of_difference.
Qed.

(** C1.  For all follower and following sets [F], [G] and all
    natural-number caps, every element of [to_follow] is in [F] and not in
    [G], every element of [to_unfollow] is in [G] and not in [F], and the
    two lists are no longer than their caps. *)
Theorem reconcile_sound F G (max_follow max_unfollow : nat) :
  let '(to_follow, to_unfollow) :=
    reconcile F G (Z.of_nat max_follow) (Z.of_nat max_unfollow) in
  (∀ x, x ∈ to_follow → x ∈ F ∧ x ∉ G) ∧
  (∀ x, x ∈ to_unfollow → x ∈ G ∧ x ∉ F) ∧
  (length to_follow ≤ max_follow)%nat ∧
  (length to_unfollow ≤ max_unfollow)%nat.
Proof.
  unfold reconcile. split_and!.
  - intros x. apply slice_difference.
  - intros x. apply slice_difference.
  - etrans; [apply slice_to_length|]; lia.
  - etrans; [apply slice_to_length|]; lia.
Qed.

(** C10.  Whatever the sets and the caps (negative ones included), no
    identifier is in both candidate lists. *)
Theorem reconcile_disjoint F G (max_follow max_unfollow : Z) :
  let '(to_follow, to_unfollow) :=
    reconcile F G max_follow max_unfollow in
  ∀ x, x ∈ to_follow → x ∉ to_unfollow.
Proof.
  unfold reconcile. intros x [HF HG]%slice_difference [_ []]%slice_difference.
  done.
Qed.

Lemma set_to_list_NoDup F : NoDup (set_to_list F).
Proof. rewrite (set_to_list_perm F). apply NoDup_elements. Qed.

Lemma set_to_list_length F : length (set_to_list F) = size F.
Proof. by rewrite (set_to_list_perm F). Qed.

Lemma set_to_list_nil F : set_to_list F = [] ↔ F = ∅.
Proof.
  rewrite <- Permutation_nil_r, (set_to_list_perm F), Permutation_nil_r.
  rewrite elements_empty_iff. by unfold_leibniz.
Qed.

(** X11.  Neither candidate list names an account twice, whatever the sets,
    the caps and the order in which a set is enumerated. *)
Theorem reconcile_NoDup F G (max_follow max_unfollow : Z) :
  NoDup (reconcile F G max_follow max_unfollow).1 ∧
  NoDup (reconcile F G max_follow max_unfollow).2.
Proof. split; apply slice_to_NoDup, set_to_list_NoDup. Qed.

(** X12.  The exact length of [to_follow] (and, with the roles of the sets
    exchanged, of [to_unfollow]): for a cap that is not negative, the
    smaller of the cap and the number of candidates; for a negative cap
    [-k], which [argparse] accepts, all candidates but [k] of them (none
    when there are fewer than [k]), because [l[:-k]] drops the last [k]
    items. *)
Theorem reconcile_lengths F G (max_follow max_unfollow : Z) :
  let '(to_follow, to_unfollow) := reconcile F G max_follow max_unfollow in
  Z.of_nat (length to_follow)
  = (if max_follow <? 0
     then Z.max (Z.of_nat (size (F ∖ G)) + max_follow) 0
     else Z.min max_follow (Z.of_nat (size (F ∖ G)))) ∧
  Z.of_nat (length to_unfollow)
  = (if max_unfollow <? 0
     then Z.max (Z.of_nat (size (G ∖ F)) + max_unfollow) 0
     else Z.min max_unfollow (Z.of_nat (size (G ∖ F)))).
Proof.
  unfold reconcile. by rewrite !slice_to_length_exact, !set_to_list_length.
Qed.

(** X13.  When a cap is at least the number of candidates, nothing is cut:
    [to_follow] enumerates exactly the followers that are not followed back
    (and [to_unfollow] exactly the followed accounts that do not follow). *)
Theorem reconcile_complete F G (max_follow max_unfollow : Z) :
  let '(to_follow, to_unfollow) := reconcile F G max_follow max_unfollow in
  (Z.of_nat (size (F ∖ G)) ≤ max_follow → to_follow ≡ₚ elements (F ∖ G)) ∧
  (Z.of_nat (size (G ∖ F)) ≤ max_unfollow → to_unfollow ≡ₚ elements (G ∖ F)).
Proof.
  unfold reconcile. split; intros Hcap.
  - rewrite slice_to_all by by rewrite set_to_list_length.
    apply set_to_list_perm.
  - rewrite slice_to_all by by rewrite set_to_list_length.
    apply set_to_list_perm.
Qed.

(** X14.  With positive caps, both candidate lists are empty exactly when
    the followers and the following sets are equal: a run has nothing to do
    only on an account that is already reconciled. *)
Theorem reconcile_nothing_to_do F G (max_follow max_unfollow : Z) :
  0 < max_follow → 0 < max_unfollow →
  reconcile F G max_follow max_unfollow = ([], []) ↔ F = G.
Proof.
  intros Hfollow Hunfollow. unfold reconcile. split.
  - intros [= HFG HGF].
    apply slice_to_nil, set_to_list_nil in HFG; [|done].
    apply slice_to_nil, set_to_list_nil in HGF; [|done].
    apply set_eq. intros x. split; intros Hx.
    + destruct (decide (x ∈ G)) as [|Hno]; [done|].
      assert (x ∈ F ∖ G) as Hin by by apply elem_of_difference.
      rewrite HFG in Hin. by apply not_elem_of_empty in Hin.
    + destruct (decide (x ∈ F)) as [|Hno]; [done|].
      assert (x ∈ G ∖ F) as Hin by by apply elem_of_difference.
      rewrite HGF in Hin. by apply not_elem_of_empty in Hin.
  - intros ->. rewrite difference_diag_L.
    assert (set_to_list (∅ : gset string) = []) as ->
      by by apply set_to_list_nil.
    unfold slice_to. by rewrite !take_nil, !Tauto.if_same.
Qed.

End Reconciler.

(** ** Safety of a whole run *)

Section Safety.
Context {W : Type} `{!World W}.

#[local] Instance follow_request_inj : Inj (=) (=) follow_request.
Proof.
  intros u1 u2 [= Hurl]. exact Hurl.
Qed.

#[local] Instance unfollow_request_inj : Inj (=) (=) unfollow_request.
Proof.
  intros u1 u2 [= Hurl]. exact Hurl.
Qed.

(** The mutation calls a run adds are a prefix of the follow calls for
    some [to_follow] followed by the unfollow calls for some [to_unfollow],
    where the two lists are what [reconcile] gives for some pair of sets. *)
Lemma main_mutations a token fuel (st : state W) :
  ∃ F G reached,
    reached `prefix_of`
      (follow_request <$> (reconcile F G (max_follows a) (max_unfollows a)).1)
      ++ (unfollow_request
            <$> (reconcile F G (max_follows a) (max_unfollows a)).2) ∧
    mutations (trace (main a token fuel st).2) = mutations (trace st) ++ reached.
Proof.
  assert (∀ tr, mutations tr = mutations (trace st) →
            ∃ F G reached,
              reached `prefix_of`
                (follow_request
                   <$> (reconcile F G (max_follows a) (max_unfollows a)).1)
                ++ (unfollow_request
                      <$> (reconcile F G (max_follows a) (max_unfollows a)).2) ∧
              mutations tr = mutations (trace st) ++ reached) as Hnone.
  { intros tr ->. exists ∅, ∅, []. split; [apply prefix_nil|].
    by rewrite app_nil_r. }
  destruct token as [[|c token]|];
    [by apply Hnone, silent_print| |by apply Hnone, silent_print].
  rewrite main_with_token, bind_run.
  pose proof (silent_candidates a fuel st) as Hsilent.
  destruct (candidates a fuel st) as [[cand|e|g] st1] eqn:Hcand;
    simpl in Hsilent; [|by apply Hnone..].
  destruct (candidates_reconcile _ _ _ _ _ Hcand) as (F & G & ->).
  destruct (mode a) eqn:Hmode.
  - apply Hnone. by rewrite silent_report_dry_run.
  - destruct (execute_calls a (reconcile F G (max_follows a) (max_unfollows a)).1
                (reconcile F G (max_follows a) (max_unfollows a)).2 st1 Hmode)
      as (reached & Hprefix & Hcalls & _).
    exists F, G, reached. split; [done|].
    by rewrite <- Hsilent, <- Hcalls.
Qed.

(** X15.  An upper bound on what a run can change: with caps given as
    natural numbers, any run, in any mode and whatever the world answers,
    sends at most [max_follows + max_unfollows] mutation requests. *)
Theorem mutation_calls_bounded
    m (max_follow max_unfollow : nat) token fuel (st : state W) :
  let a := Args m (Z.of_nat max_follow) (Z.of_nat max_unfollow) in
  (length (mutations (trace (main a token fuel st).2))
   ≤ length (mutations (trace st)) + max_follow + max_unfollow)%nat.
Proof.
  intros a.
  destruct (main_mutations a token fuel st)
    as (F & G & reached & Hprefix%prefix_length & ->).
  rewrite length_app in *. rewrite !length_fmap in Hprefix.
  unfold reconcile in Hprefix. cbn [fst snd max_follows max_unfollows a] in Hprefix.
  pose proof (slice_to_length (set_to_list (F ∖ G)) (Z.of_nat max_follow)).
  pose proof (slice_to_length (set_to_list (G ∖ F)) (Z.of_nat max_unfollow)).
  lia.
Qed.


(** X17.  A followers fetch that fails on its first page is taken for an
    account without followers: the run goes on, nothing is a candidate to
    follow, and every account the user follows is a candidate to unfollow
    (up to the cap). *)
Theorem failed_followers_fetch a fuel st st1 err w2 following st3 :
  check_rate_limit st = (Ret tt, st1) →
  send (page_request (GITHUB_API +:+ "/user/followers") 1) (world st1)
  = (inr err, w2) →
  status_code err ≠ 200 →
  get_following fuel
    (State w2
       (trace st1 ++
        [Print [Lit "[INFO] Fetching followers..."];
         Http (page_request (GITHUB_API +:+ "/user/followers") 1);
         Print [Lit "[ERROR] Failed to fetch: "; Lit (text err)]]))
  = (Ret following, st3) →
  (0 < fuel)%nat →
  candidates a fuel st
  = (Ret ([], slice_to (set_to_list following) (max_unfollows a)), st3).
Proof.
  intros Hguard Hsend Hstatus Hfollowing Hfuel.
  destruct fuel as [|fuel]; [lia|].
  erewrite (candidates_run a (S fuel) st st1 ∅); [|done| |done].
  - unfold reconcile.
    rewrite difference_empty_L, (proj2 (set_to_list_nil (∅ ∖ following))).
    + unfold slice_to. by rewrite !take_nil, Tauto.if_same.
    + apply set_eq. intros x. rewrite elem_of_difference.
      split; [intros [[]%not_elem_of_empty _] | intros []%not_elem_of_empty].
  - unfold get_followers, get_paginated.
    erewrite bind_ret by reflexivity. cbn [get_paginated_from].
    erewrite bind_ret by (by apply session_ok).
    rewrite bool_decide_true by done.
    erewrite bind_ret by reflexivity. rewrite ret_run.
    cbn [world trace]. by rewrite <- !app_assoc.
Qed.

End Safety.

(** ** Worked runs on the scripted worlds *)

Ltac compute_run := vm_compute; reflexivity.

Ltac scripted_answers :=
  repeat first
    [ reflexivity
    | eexists; split; [compute_run |] ].

Ltac scripted_pages :=
  repeat first
    [ apply Forall_nil_2
    | apply Forall_cons_2
    | apply Forall2_nil_2
    | apply Forall2_cons_2
    | split
    | eexists
    | compute_run
    | discriminate ].

(** The scenario of the specification: followers alice, bob and carol,
    following bob and dave, caps of 5. *)
Example reconcile_scenario :
  reconcile (W := Mock.table) {[ "alice"; "bob"; "carol" ]} {[ "bob"; "dave" ]} 5 5
  = (["carol"; "alice"], ["dave"]).
Proof. compute_run. Qed.

(** The example of C3: the pages [{A, B}; {C}; {}] give exactly
    [{A, B, C}], after three requests. *)
Lemma pagination_stops_at_empty_page_witness :
  get_paginated 5 Mock.followers_url (State Mock.three_pages [])
  = (Ret {[ "A"; "B"; "C" ]},
     State Mock.three_pages
       [Http (page_request Mock.followers_url 1);
        Http (page_request Mock.followers_url 2);
        Http (page_request Mock.followers_url 3)]).
Proof.
  etrans.
  - apply (pagination_stops_at_empty_page Mock.followers_url
             [(Mock.ok (JArr [Mock.user "A"; Mock.user "B"]), ["A"; "B"]);
              (Mock.ok (JArr [Mock.user "C"]), ["C"])]
             (Mock.ok (JArr [])));
      [scripted_pages | scripted_pages | scripted_answers | simpl; lia].
  - compute_run.
Defined.

(** The example of C4: the pages [{A}; <500 error>] give [{A}], and the
    error body is printed. *)
Lemma pagination_stops_at_error_witness :
  get_paginated 5 Mock.followers_url (State Mock.failing_page [])
  = (Ret {[ "A" ]},
     State Mock.failing_page
       [Http (page_request Mock.followers_url 1);
        Http (page_request Mock.followers_url 2);
        Print [Lit "[ERROR] Failed to fetch: "; Lit "Internal Server Error"]]).
Proof.
  etrans.
  - apply (pagination_stops_at_error Mock.followers_url
             [(Mock.ok (JArr [Mock.user "A"]), ["A"])]
             (Response 500 "Internal Server Error" None));
      [scripted_pages | discriminate | scripted_answers | simpl; lia].
  - compute_run.
Defined.



(** A dry run on the demo account: no mutation call, and after the guard and
    the two fetches only the two counts and the two lists are printed. *)
Lemma dry_run_never_mutates_witness :
  let r := run (main (Args DryRun 5 5) (Some "token") 5) Mock.demo in
  mutations (trace r.2) = [] ∧
  r = (Ret tt,
       State Mock.demo
         (trace (run (candidates (Args DryRun 5 5) 5) Mock.demo).2 ++
          [Print [Lit "[INFO] Users to follow: "; ShowInt 2];
           Print [Lit "[INFO] Users to unfollow: "; ShowInt 1];
           Print [Lit "[DRY RUN] Would follow:"; ShowList ["carol"; "alice"]];
           Print [Lit "[DRY RUN] Would unfollow:"; ShowList ["dave"]]])).
Proof.
  intros r. subst r. unfold run.
  destruct (dry_run_never_mutates 5 5 (Some "token") 5 (State Mock.demo []))
    as [Hsilent Hprints].
  split; [exact Hsilent|].
  etrans.
  - apply (Hprints ["carol"; "alice"] ["dave"]
             (candidates (Args DryRun 5 5) 5 (State Mock.demo [])).2);
      [discriminate | discriminate | compute_run].
  - compute_run.
Defined.



(** On the flaky network, where no unfollow call is answered at all, the
    follow of carol is answered 204: its [SUCCESS] line is printed and the
    loop goes on with alice.  On the demo account the unfollow of carol is
    answered 404: no [SUCCESS] line, and the loop goes on with dave. *)
Lemma action_status_non_fatal_witness :
  (((follow_user "carol" (State Mock.flaky [])).1 = Ret true ↔ 204 = 204) ∧
   for_each ["carol"; "alice"] follow_body (State Mock.flaky [])
   = for_each ["alice"] follow_body
       (State Mock.flaky
          [Print [Lit "[ACTION] Following "; Lit "carol"];
           Http (follow_request "carol");
           Print [Lit "[SUCCESS] Followed "; Lit "carol"];
           Pace 2 5])) ∧
  (((unfollow_user "carol" (State Mock.demo [])).1 = Ret true ↔ 404 = 204) ∧
   for_each ["carol"; "dave"] unfollow_body (State Mock.demo [])
   = for_each ["dave"] unfollow_body
       (State Mock.demo
          [Print [Lit "[ACTION] Unfollowing "; Lit "carol"];
           Http (unfollow_request "carol");
           Pace 2 5])).
Proof.
  destruct (action_status_non_fatal (W := Mock.table)) as [Hfollow Hunfollow].
  split.
  - apply (Hfollow "carol" ["alice"] (State Mock.flaky [])
             (Response 204 "" None) Mock.flaky).
    compute_run.
  - apply (Hunfollow "carol" ["dave"] (State Mock.demo [])
             (Response 404 "Not Found" None) Mock.demo).
    compute_run.
Defined.

(** An execute run on the demo account: the follow calls for carol and
    alice, in the order of the list, come before the unfollow call for
    dave. *)
Lemma execute_follows_then_unfollows_witness :
  let r := run (main (Args Execute 5 5) (Some "token") 5) Mock.demo in
  r.1 = Ret tt ∧
  mutations (trace r.2)
  = [follow_request "carol"; follow_request "alice"; unfollow_request "dave"].
Proof.
  intros r.
  destruct (execute_follows_then_unfollows 5 5 "t"%char "oken" 5
              (State Mock.demo []) ["carol"; "alice"] ["dave"]
              (run (candidates (Args Execute 5 5) 5) Mock.demo).2)
    as (reached & _ & Hcalls & Hall); [compute_run|].
  assert (r.1 = Ret tt) as Hret by compute_run.
  split; [exact Hret|].
  etrans; [exact Hcalls|]. by rewrite (Hall Hret).
Defined.

(** *** Runs for the further properties *)

(** The pages [{A}; <200, not JSON>] end in [JSONDecodeError]. *)
Lemma pagination_raises_on_bad_json_witness :
  get_paginated 5 Mock.followers_url (State Mock.bad_json_page [])
  = (Raise JSONDecodeError,
     State Mock.bad_json_page
       [Http (page_request Mock.followers_url 1);
        Http (page_request Mock.followers_url 2)]).
Proof.
  etrans.
  - apply (pagination_raises_on_bad_json Mock.followers_url
             [(Mock.ok (JArr [Mock.user "A"]), ["A"])]
             (Response 200 "<html>" None));
      [scripted_pages | reflexivity | reflexivity | scripted_answers
      | simpl; lia].
  - compute_run.
Defined.

(** The pages [{A}; {B, <no login>, C}] end in [KeyError "login"]. *)
Lemma pagination_raises_on_missing_login_witness :
  get_paginated 5 Mock.followers_url (State Mock.missing_login_page [])
  = (Raise (KeyError "login"),
     State Mock.missing_login_page
       [Http (page_request Mock.followers_url 1);
        Http (page_request Mock.followers_url 2)]).
Proof.
  etrans.
  - apply (pagination_raises_on_missing_login Mock.followers_url
             [(Mock.ok (JArr [Mock.user "A"]), ["A"])]
             (Mock.ok (JArr [Mock.user "B"; JObj {[ "id" := JInt 7 ]};
                             Mock.user "C"]))
             [Mock.user "B"] ["B"] {[ "id" := JInt 7 ]} [Mock.user "C"]);
      [scripted_pages | reflexivity | reflexivity | scripted_pages
      | compute_run | scripted_answers | simpl; lia].
  - compute_run.
Defined.

(** The pages [{A}; null] give [{A}]. *)
Lemma pagination_on_non_array_witness :
  get_paginated 5 Mock.followers_url (State Mock.null_page [])
  = (Ret {[ "A" ]},
     State Mock.null_page
       [Http (page_request Mock.followers_url 1);
        Http (page_request Mock.followers_url 2)]).
Proof.
  etrans.
  - apply (pagination_on_non_array Mock.followers_url
             [(Mock.ok (JArr [Mock.user "A"]), ["A"])]
             (Mock.ok JNull) JNull);
      [scripted_pages | reflexivity | reflexivity | discriminate
      | scripted_answers | simpl; lia].
  - compute_run.
Defined.

(** A [remaining] of ["4999"] is printed and then refused. *)
Lemma rate_limit_non_numeric_remaining_witness :
  check_rate_limit (State Mock.text_remaining [])
  = (Raise TypeError,
     State Mock.text_remaining
       [Http rate_request;
        Print [Lit "[INFO] API remaining: "; ShowJson (JStr "4999")]]).
Proof.
  eapply (rate_limit_non_numeric_remaining (State Mock.text_remaining []) _
            Mock.text_remaining (JStr "4999") (JInt 110)).
  - compute_run.
  - eexists _, _. split_and!; compute_run.
  - reflexivity.
Defined.

(** With 60 calls left a [reset] of [null] goes unnoticed. *)
Lemma rate_limit_reset_type_witness :
  check_rate_limit (State Mock.null_reset [])
  = (Ret tt,
     State Mock.null_reset
       [Http rate_request;
        Print [Lit "[INFO] API remaining: "; ShowJson (JInt 60)]]).
Proof.
  eapply (rate_limit_reset_type (State Mock.null_reset []) _
            Mock.null_reset 60 JNull).
  - compute_run.
  - eexists _, _. split_and!; compute_run.
  - lia.
Defined.

(** An execute run on the demo account, every call answered: carol is
    followed (204), alice is not (404), dave is unfollowed (204), and the
    run ends normally. *)
Lemma execute_run_completes_witness :
  run (main (Args Execute 5 5) (Some "token") 5) Mock.demo
  = (Ret tt,
     State Mock.demo
       (trace (run (candidates (Args Execute 5 5) 5) Mock.demo).2 ++
        [Print [Lit "[INFO] Users to follow: "; ShowInt 2];
         Print [Lit "[INFO] Users to unfollow: "; ShowInt 1];
         Print [Lit "[ACTION] Following "; Lit "carol"];
         Http (follow_request "carol");
         Print [Lit "[SUCCESS] Followed "; Lit "carol"];
         Pace 2 5;
         Print [Lit "[ACTION] Following "; Lit "alice"];
         Http (follow_request "alice");
         Pace 2 5;
         Print [Lit "[ACTION] Unfollowing "; Lit "dave"];
         Http (unfollow_request "dave");
         Print [Lit "[SUCCESS] Unfollowed "; Lit "dave"];
         Pace 2 5])).
Proof.
  unfold run. etrans.
  - apply (execute_run_completes 5 5 "t" "oken" 5 (State Mock.demo [])
             ["carol"; "alice"] ["dave"]
             (candidates (Args Execute 5 5) 5 (State Mock.demo [])).2
             [Response 204 "" None; Response 404 "Not Found" None]
             Mock.demo [Response 204 "" None] Mock.demo);
      [compute_run | scripted_answers | scripted_answers].
  - compute_run.
Defined.

(** The same account when the follow call for alice is dropped: the run
    ends with the transport error right after that request, alice's
    [SUCCESS] line, the pacing sleep and the unfollow of dave never
    happen. *)
Lemma execute_run_aborts_on_transport_error_witness :
  run (main (Args Execute 5 5) (Some "token") 5) Mock.flaky
  = (Raise TransportError,
     State Mock.flaky
       (trace (run (candidates (Args Execute 5 5) 5) Mock.flaky).2 ++
        [Print [Lit "[INFO] Users to follow: "; ShowInt 2];
         Print [Lit "[INFO] Users to unfollow: "; ShowInt 1];
         Print [Lit "[ACTION] Following "; Lit "carol"];
         Http (follow_request "carol");
         Print [Lit "[SUCCESS] Followed "; Lit "carol"];
         Pace 2 5;
         Print [Lit "[ACTION] Following "; Lit "alice"];
         Http (follow_request "alice")])).
Proof.
  unfold run. etrans.
  - apply (execute_run_aborts_on_transport_error 5 5 "t" "oken" 5
             (State Mock.flaky []) ["carol"] "alice" [] ["dave"]
             (candidates (Args Execute 5 5) 5 (State Mock.flaky [])).2
             [Response 204 "" None] Mock.flaky TransportError Mock.flaky);
      [compute_run | scripted_answers | compute_run].
  - compute_run.
Defined.

(** Followers alice, bob and carol, following bob and dave: a cap of 2 is
    enough to take both followers that are not followed back. *)
Lemma reconcile_complete_witness :
  (reconcile (W := Mock.table)
     {[ "alice"; "bob"; "carol" ]} {[ "bob"; "dave" ]} 2 1).1
  ≡ₚ elements ({[ "alice"; "bob"; "carol" ]} ∖ {[ "bob"; "dave" ]}
               : gset string).
Proof.
  apply (proj1 (reconcile_complete (W := Mock.table)
                  {[ "alice"; "bob"; "carol" ]} {[ "bob"; "dave" ]} 2 1)).
  vm_compute. discriminate.
Defined.

(** An account whose followers and following are both [{bob}] has nothing
    to do. *)
Lemma reconcile_nothing_to_do_witness :
  reconcile (W := Mock.table) {[ "bob" ]} {[ "bob" ]} 5 5 = ([], []).
Proof.
  apply (reconcile_nothing_to_do (W := Mock.table) {[ "bob" ]} {[ "bob" ]} 5 5);
    [lia | lia | reflexivity].
Defined.

(** The demo account while the followers endpoint answers 503: nobody to
    follow, and both bob and dave become candidates to unfollow, although
    bob is a follower. *)
Lemma failed_followers_fetch_witness :
  (run (candidates (Args Execute 5 5) 5) Mock.followers_down).1
  = Ret ([], ["bob"; "dave"]).
Proof.
  unfold run.
  erewrite (failed_followers_fetch (Args Execute 5 5) 5
              (State Mock.followers_down [])
              (check_rate_limit (State Mock.followers_down [])).2
              (Response 503 "Service Unavailable" None) Mock.followers_down
              {[ "bob"; "dave" ]});
    [compute_run | compute_run | compute_run | discriminate | compute_run
    | lia].
Defined.


(** A quota of 2 and a reset 10000000000 seconds ahead abort the run with
    [OverflowError] right after the warning. *)
Lemma rate_limit_sleep_overflow_witness :
  main (Args Execute 5 5) (Some "token") 5 (State Mock.far_reset [])
  = (Raise OverflowError,
     State Mock.far_reset
       [Http rate_request;
        Print [Lit "[INFO] API remaining: "; ShowJson (JInt 2)];
        Print [Lit "[WARNING] Rate limit low. Sleeping ";
               ShowInt 10000000000; Lit " seconds..."]]).
Proof.
  refine (proj2 (rate_limit_sleep_overflow (Args Execute 5 5) "t" "oken" 5
                   (State Mock.far_reset [])
                   (Mock.ok (Mock.rate 2 10000000100)) Mock.far_reset
                   2 10000000100 100 Mock.far_reset _ _ _ _ _)).
  - compute_run.
  - eexists _, _. split_and!; compute_run.
  - compute_run.
  - lia.
  - unfold sleep_max. lia.
Defined.
